(** * Trajectory analysis of the well-profile backend

    A shallow embedding of the [/trajectory/analyze] handler of
    [src/backend/main.py] (function [analyze_trajectory], lines 271-343) and
    the properties of its statistics and of its dogleg-severity loop.

    Numbers.  The handler computes with IEEE double precision values.  They
    are idealised here: a [float64] is either a real number or [NaN], the
    arithmetic is exact, and the inputs of a request are numbers (never NaN
    or an infinity).  NaN arises where numpy produces it on numbers:
    [np.arccos] outside [-1, 1], [np.sqrt] below 0, and the statistics of an
    empty Series. *)

From Stdlib Require Import String Reals Lra Lia List Permutation Sorted Bool.
Import ListNotations.
Open Scope R_scope.

(** ** Python values and exceptions *)

Inductive float64 : Type :=
| Val (x : R)
| NaN.

Definition lift1 (f : R -> R) (a : float64) : float64 :=
  match a with
  | Val x => Val (f x)
  | NaN => NaN
  end.

Definition lift2 (f : R -> R -> R) (a b : float64) : float64 :=
  match a, b with
  | Val x, Val y => Val (f x y)
  | _, _ => NaN
  end.

(** [a > b] on floats: every comparison with NaN is false. *)
Definition float_gt (a b : float64) : bool :=
  match a, b with
  | Val x, Val y => if Rgt_dec x y then true else false
  | _, _ => false
  end.

Inductive exception : Type :=
| KeyError
| IndexError.

Inductive result (A : Type) : Type :=
| Return (a : A)
| Raise (e : exception).

Arguments Return {A} a.
Arguments Raise {A} e.

Definition bind {A B : Type} (m : result A) (k : A -> result B) : result B :=
  match m with
  | Return a => k a
  | Raise e => Raise e
  end.

Notation "x <- m ;; k" := (bind m (fun x => k))
  (at level 61, m at next level, right associativity).

(** ** numpy *)

Module np.

Definition pi : R := PI.

Definition radians (x : R) : R := x * (PI / 180).

Definition degrees (x : R) : R := x * (180 / PI).

Definition sqrt (a : float64) : float64 :=
  match a with
  | Val x => if Rle_dec 0 x then Val (R_sqrt.sqrt x) else NaN
  | NaN => NaN
  end.

(** The inverse cosine: a number on [-1, 1], NaN elsewhere (numpy warns
    and returns nan, it does not raise). *)
Definition arccos (x : R) : float64 :=
  if Rle_dec (-1) x then
    if Rle_dec x 1 then Val (acos x) else NaN
  else NaN.

(** The angle of the point of abscissa [x] and ordinate [y], by quadrant.
    Over the reals the angle is never [- PI]; in double precision numpy
    rounds an angle just above [- PI] to it (its documented range is
    [-pi, pi]), so the statements about the handler use the closed range. *)
Definition arctan2 (y x : R) : R :=
  if Rlt_dec 0 x then atan (y / x)
  else if Rlt_dec x 0 then
    if Rle_dec 0 y then atan (y / x) + PI else atan (y / x) - PI
  else if Rlt_dec 0 y then PI / 2
  else if Rlt_dec y 0 then - (PI / 2)
  else 0.

(** [np.mean] of a Python list of floats: the sum over the count. *)
Definition mean (l : list float64) : float64 :=
  match l with
  | [] => NaN
  | _ => lift2 Rdiv (fold_left (lift2 Rplus) l (Val 0)) (Val (INR (length l)))
  end.

End np.

(** Python's builtin [max] on a non-empty list, first element [v]: the
    running maximum is replaced by an item only when [item > maximum]. *)
Definition builtin_max (v : float64) (vs : list float64) : float64 :=
  fold_left (fun m item => if float_gt item m then item else m) vs v.

(** ** The request models *)

Record TrajectoryPoint : Type := {
  md : R;
  tvd : R;
  inc : R;
  azi : R;
  north : option R;
  east : option R
}.

Module WellTrajectory.

Record t : Type := {
  id : string;
  name : string;
  points : list TrajectoryPoint;
  unit_system : string;
  start_point : list (string * R);
  end_point : list (string * R);
  total_depth : R;
  total_displacement : R;
  max_inclination : R;
  max_dls : R
}.

End WellTrajectory.

(** [x or 0] on an optional float: [None] and [0.0] are falsy. *)
Definition or_0 (x : option R) : R :=
  match x with
  | Some v => v
  | None => 0
  end.

(** ** pandas *)

(** A row of the frame built by the handler, one cell per key of the dict. *)
Record Row : Type := {
  row_md : R;
  row_tvd : R;
  row_inc : R;
  row_azi : R;
  row_north : R;
  row_east : R
}.

Definition DataFrame : Type := list Row.

Definition Series : Type := list R.

Definition cell (c : string) : option (Row -> R) :=
  if String.eqb c "md" then Some row_md
  else if String.eqb c "tvd" then Some row_tvd
  else if String.eqb c "inc" then Some row_inc
  else if String.eqb c "azi" then Some row_azi
  else if String.eqb c "north" then Some row_north
  else if String.eqb c "east" then Some row_east
  else None.

(** A frame built from a list of dicts has the keys of the dicts as its
    columns, and no column at all when the list is empty. *)
Definition columns (df : DataFrame) : list string :=
  match df with
  | [] => []
  | _ :: _ => ["md"; "tvd"; "inc"; "azi"; "north"; "east"]%string
  end.

Definition has_column (c : string) (df : DataFrame) : bool :=
  existsb (String.eqb c) (columns df).

(** [df[c]] *)
Definition getitem (df : DataFrame) (c : string) : result Series :=
  if has_column c df then
    match cell c with
    | Some f => Return (map f df)
    | None => Raise KeyError
    end
  else Raise KeyError.

(** [s.max()]: NaN on an empty Series. *)
Definition Series_max (s : Series) : float64 :=
  match s with
  | [] => NaN
  | x :: xs => Val (fold_left Rmax xs x)
  end.

(** [s.mean()] *)
Definition Series_mean (s : Series) : float64 :=
  np.mean (map Val s).

(** [s.iloc[-1]] *)
Definition Series_iloc_last (s : Series) : result R :=
  match nth_error s (length s - 1) with
  | Some x => Return x
  | None => Raise IndexError
  end.

(** [df.iloc[i]] for [i >= 0] *)
Definition iloc (df : DataFrame) (i : nat) : result Row :=
  match nth_error df i with
  | Some r => Return r
  | None => Raise IndexError
  end.

(** ** The handler *)

(** The response body: the [analysis] dict once both DLS keys are set. *)
Record Analysis : Type := {
  total_length : float64;
  total_displacement : float64;
  max_inclination : float64;
  max_azimuth : float64;
  vertical_section : float64;
  closure_distance : float64;
  closure_azimuth : float64;
  point_count : nat;
  max_dls : float64;
  avg_dls : float64
}.

(** The dict appended to [data] for one point. *)
Definition to_dict (point : TrajectoryPoint) : Row := {|
  row_md := md point;
  row_tvd := tvd point;
  row_inc := inc point;
  row_azi := azi point;
  row_north := or_0 (north point);
  row_east := or_0 (east point)
|}.

(** Lines 312-318: the azimuth difference after the two wrap-around tests. *)
Definition azimuth_delta (prev curr : Row) : R :=
  let delta_azi := row_azi curr - row_azi prev in
  let delta_azi := if Rgt_dec delta_azi 180 then delta_azi - 360 else delta_azi in
  let delta_azi := if Rlt_dec delta_azi (-180) then delta_azi + 360 else delta_azi in
  delta_azi.

(** Lines 321-324: the argument handed to [np.arccos]. *)
Definition arccos_argument (prev curr : Row) : R :=
  let delta_inc := row_inc curr - row_inc prev in
  let delta_azi := azimuth_delta prev curr in
  cos (np.radians delta_inc) +
  sin (np.radians (row_inc prev)) *
  sin (np.radians (row_inc curr)) *
  (1 - cos (np.radians delta_azi)).

(** Lines 320-325: [dls], the dogleg angle in degrees. *)
Definition dogleg (prev curr : Row) : float64 :=
  lift1 (fun a => a * 180 / np.pi) (np.arccos (arccos_argument prev curr)).

(** The body of the loop of line 304 at index [i]. *)
Definition dls_iteration (df : DataFrame) (dls_values : list float64) (i : nat)
  : result (list float64) :=
  prev <- iloc df (i - 1) ;;
  curr <- iloc df i ;;
  let delta_md := row_md curr - row_md prev in
  if Rgt_dec delta_md 0 then
    let dls := dogleg prev curr in
    let dls_per_100ft := lift1 (fun d => d / delta_md * 100) dls in
    Return (dls_values ++ [dls_per_100ft])
  else Return dls_values.

Fixpoint for_in {A : Type} (range : list nat) (body : A -> nat -> result A)
  (acc : A) : result A :=
  match range with
  | [] => Return acc
  | i :: range' => acc' <- body acc i ;; for_in range' body acc'
  end.

(** [dls_values] after [for i in range(1, len(df))]. *)
Definition dls_series (df : DataFrame) : result (list float64) :=
  for_in (seq 1 (length df - 1)) (dls_iteration df) [].

(** Lines 302-338: the pair [(max_dls, avg_dls)]. *)
Definition dls_statistics (df : DataFrame) : result (float64 * float64) :=
  if negb (has_column "dls" df) && (1 <? length df)%nat then
    dls_values <- dls_series df ;;
    match dls_values with
    | v :: vs => Return (builtin_max v vs, np.mean dls_values)
    | [] => Return (Val 0, Val 0)
    end
  else
    max_dls <- (if has_column "dls" df
                then s <- getitem df "dls" ;; Return (Series_max s)
                else Return (Val 0)) ;;
    avg_dls <- (if has_column "dls" df
                then s <- getitem df "dls" ;; Return (Series_mean s)
                else Return (Val 0)) ;;
    Return (max_dls, avg_dls).

Definition sq (a : float64) : float64 := lift1 (fun x => x ^ 2) a.

(** The body of the [try] block. *)
Definition analyze (trajectory : WellTrajectory.t) : result Analysis :=
  let data := map to_dict (WellTrajectory.points trajectory) in
  let df : DataFrame := data in
  md_ <- getitem df "md" ;;
  north_max <- getitem df "north" ;;
  east_max <- getitem df "east" ;;
  inc_ <- getitem df "inc" ;;
  azi_ <- getitem df "azi" ;;
  tvd_ <- getitem df "tvd" ;;
  north_ <- getitem df "north" ;;
  north_last <- Series_iloc_last north_ ;;
  east_ <- getitem df "east" ;;
  east_last <- Series_iloc_last east_ ;;
  dls <- dls_statistics df ;;
  Return {|
    total_length := Series_max md_;
    total_displacement :=
      np.sqrt (lift2 Rplus (sq (Series_max north_max)) (sq (Series_max east_max)));
    max_inclination := Series_max inc_;
    max_azimuth := Series_max azi_;
    vertical_section := Series_max tvd_;
    closure_distance :=
      np.sqrt (lift2 Rplus (sq (Val north_last)) (sq (Val east_last)));
    closure_azimuth := Val (np.degrees (np.arctan2 east_last north_last));
    point_count := length df;
    max_dls := fst dls;
    avg_dls := snd dls
  |}.

Inductive response : Type :=
| OK (analysis : Analysis)
| HTTPException (status_code : nat).

(** [analyze_trajectory]: any exception of the body becomes a 500. *)
Definition analyze_trajectory (trajectory : WellTrajectory.t) : response :=
  match analyze trajectory with
  | Return analysis => OK analysis
  | Raise _ => HTTPException 500
  end.

(** A request whose only meaningful field is its list of points (the
    handler reads no other field). *)
Definition survey (pts : list TrajectoryPoint) : WellTrajectory.t := {|
  WellTrajectory.id := "";
  WellTrajectory.name := "";
  WellTrajectory.points := pts;
  WellTrajectory.unit_system := "metric";
  WellTrajectory.start_point := [];
  WellTrajectory.end_point := [];
  WellTrajectory.total_depth := 0;
  WellTrajectory.total_displacement := 0;
  WellTrajectory.max_inclination := 0;
  WellTrajectory.max_dls := 0
|}.

(** ** The loop, read pair by pair *)

(** What one interval contributes to [dls_values]. *)
Definition dls_entry (prev curr : Row) : list float64 :=
  let delta_md := row_md curr - row_md prev in
  if Rgt_dec delta_md 0
  then [lift1 (fun d => d / delta_md * 100) (dogleg prev curr)]
  else [].

Fixpoint dls_pairs (prev : Row) (rest : list Row) : list float64 :=
  match rest with
  | [] => []
  | curr :: rest' => dls_entry prev curr ++ dls_pairs curr rest'
  end.

(** Lines 330-335: the statistics of a finished [dls_values]. *)
Definition dls_summary (dls_values : list float64) : float64 * float64 :=
  match dls_values with
  | v :: vs => (builtin_max v vs, np.mean dls_values)
  | [] => (Val 0, Val 0)
  end.

(** The response to a survey [p :: ps], field by field. *)
Definition analysis_of (p : TrajectoryPoint) (ps : list TrajectoryPoint) : Analysis :=
  let final := last ps p in
  let dls := dls_summary (dls_pairs (to_dict p) (map to_dict ps)) in
  {|
    total_length := Val (fold_left Rmax (map md ps) (md p));
    total_displacement :=
      np.sqrt (Val (fold_left Rmax (map (fun q => or_0 (north q)) ps) (or_0 (north p)) ^ 2 +
                    fold_left Rmax (map (fun q => or_0 (east q)) ps) (or_0 (east p)) ^ 2));
    max_inclination := Val (fold_left Rmax (map inc ps) (inc p));
    max_azimuth := Val (fold_left Rmax (map azi ps) (azi p));
    vertical_section := Val (fold_left Rmax (map tvd ps) (tvd p));
    closure_distance := np.sqrt (Val (or_0 (north final) ^ 2 + or_0 (east final) ^ 2));
    closure_azimuth :=
      Val (np.degrees (np.arctan2 (or_0 (east final)) (or_0 (north final))));
    point_count := S (length ps);
    max_dls := fst dls;
    avg_dls := snd dls
  |}.

(** ** Vocabulary of the statements *)

(** [m] is the greatest element of [l]. *)
Definition greatest (m : R) (l : list R) : Prop :=
  In m l /\ forall y, In y l -> y <= m.

(** The intervals of a survey with a positive measured-depth difference. *)
Fixpoint positive_intervals (pts : list TrajectoryPoint) : nat :=
  match pts with
  | prev :: ((curr :: _) as rest) =>
      ((if Rgt_dec (md curr - md prev) 0 then 1 else 0) + positive_intervals rest)%nat
  | _ => 0%nat
  end.

(** Every measured-depth difference between consecutive points is positive. *)
Definition md_increasing (pts : list TrajectoryPoint) : Prop :=
  Sorted (fun prev curr => md curr - md prev > 0) pts.

(** The dogleg angle in degrees, in the words of the specification. *)
Definition spec_dogleg_deg (inc_prev inc_curr delta_azi : R) : float64 :=
  let delta_inc := inc_curr - inc_prev in
  lift1 np.degrees
    (np.arccos (cos (np.radians delta_inc) +
                sin (np.radians inc_prev) * sin (np.radians inc_curr) *
                (1 - cos (np.radians delta_azi)))).

(** The severity per 100 units of length, in the words of the specification. *)
Definition spec_dls_per_100 (dogleg_deg : float64) (delta_md : R) : float64 :=
  lift1 (fun d => (d / delta_md) * 100) dogleg_deg.

(** The sum of a list of reals. *)
Definition Rsum (xs : list R) : R := fold_right Rplus 0 xs.

(** A point of the survey with the greatest measured depth. *)
Definition max_md_row (p : TrajectoryPoint) (pts : list TrajectoryPoint) : Prop :=
  In p pts /\ forall q, In q pts -> md q <= md p.

(** The horizontal distance of a point from the origin. *)
Definition horizontal_norm (p : TrajectoryPoint) : R :=
  R_sqrt.sqrt (or_0 (north p) ^ 2 + or_0 (east p) ^ 2).

(** ** Surveys used as examples *)

Definition station (md_ tvd_ inc_ azi_ north_ east_ : R) : TrajectoryPoint := {|
  md := md_; tvd := tvd_; inc := inc_; azi := azi_;
  north := Some north_; east := Some east_
|}.

(** A well that runs 3 north, then turns back and ends 4 east of the origin. *)
Definition dogleg_back : list TrajectoryPoint :=
  [station 0 0 0 0 3 0; station 100 90 10 90 0 4].

(** A horizontal section that reverses its heading between two stations. *)
Definition hairpin : list TrajectoryPoint :=
  [station 0 0 90 0 0 0; station 100 0 90 180 100 0].


(** A single station due east of the origin, heading 10 degrees. *)
Definition east_station : TrajectoryPoint := station 10 10 0 10 0 1.

(** Two stations heading 350 then 10 degrees. *)
Definition across_north : list TrajectoryPoint :=
  [station 0 0 5 350 0 0; station 100 99 5 10 1 2].

(** The two stations of the end-to-end example. *)
Definition end_to_end : list TrajectoryPoint :=
  [station 0 0 0 0 0 0; station 100 99 5 10 1 2].

(** ** Vocabulary of the further properties *)

(** Measured depth never decreases from one point to the next. *)
Definition md_nondecreasing (pts : list TrajectoryPoint) : Prop :=
  Sorted (fun prev curr => md prev <= md curr) pts.

(** The point with its absent offsets written as 0. *)
Definition fill_offsets (p : TrajectoryPoint) : TrajectoryPoint := {|
  md := md p; tvd := tvd p; inc := inc p; azi := azi p;
  north := Some (or_0 (north p)); east := Some (or_0 (east p))
|}.

(** ** The generate handler

    [generate_trajectory] of [src/backend/main.py], lines 81-157.  The
    well_profile library and Python's [hash] are outside the repository:
    the handler is modelled over [wp_get], which gives the frame [well.df]
    of the well the library builds from the arguments of [wp.get] ([None]
    when the library raises), and over [request_hash], the text of
    [hash(str(request))].  Every exception ends in the same status 500, so
    the body is written in the option monad: [None] is a raised exception. *)

Notation "x <~ m ;; k" := (match m with Some x => k | None => None end)
  (at level 61, m at next level, right associativity).

Module TrajectoryProfile.

Record t : Type := {
  type : string;
  kop : option R;
  eob : option R;
  eod : option R;
  build_angle : option R;
  drop_angle : option R;
  horizontal_length : option R;
  target_depth : option R;
  target_displacement : option R;
  target_azimuth : option R
}.

End TrajectoryProfile.

Module TrajectoryRequest.

Record t : Type := {
  profile : TrajectoryProfile.t;
  start_point : list (string * R);
  unit_system : string;
  step_size : R;
  max_dls : R
}.

End TrajectoryRequest.

(** A keyword argument of [wp.get]: the profile name or a number. *)
Inductive param : Type :=
| PStr (s : string)
| PNum (x : R).

(** A row of [well.df] and the frame itself: the columns it has, and its
    rows (a row holds a cell for each column the handler may read; a cell
    is read only through the columns of the frame). *)
Record WellRow : Type := {
  w_md : R;
  w_tvd : R;
  w_inc : R;
  w_azi : R;
  w_north : R;
  w_east : R;
  w_dls : R
}.

Record WellFrame : Type := {
  frame_columns : list string;
  frame_rows : list WellRow
}.

(** [d.get(key, default)] on a dict of floats. *)
Fixpoint dict_get (d : list (string * R)) (key : string) (default : R) : R :=
  match d with
  | [] => default
  | (k, v) :: d' => if String.eqb k key then v else dict_get d' key default
  end.

(** Line 100: the entries whose value is not [None]. *)
Fixpoint without_None (d : list (string * option param)) : list (string * param) :=
  match d with
  | [] => []
  | (k, Some v) :: d' => (k, v) :: without_None d'
  | (_, None) :: d' => without_None d'
  end.

(** Lines 86-100 *)
Definition profile_params (profile : TrajectoryProfile.t) : list (string * param) :=
  without_None
    [("profile", Some (PStr (TrajectoryProfile.type profile)));
     ("kop", option_map PNum (TrajectoryProfile.kop profile));
     ("eob", option_map PNum (TrajectoryProfile.eob profile));
     ("eod", option_map PNum (TrajectoryProfile.eod profile));
     ("build_angle", option_map PNum (TrajectoryProfile.build_angle profile));
     ("drop_angle", option_map PNum (TrajectoryProfile.drop_angle profile));
     ("horizontal_length",
      option_map PNum (TrajectoryProfile.horizontal_length profile));
     ("target_depth", option_map PNum (TrajectoryProfile.target_depth profile));
     ("target_displacement",
      option_map PNum (TrajectoryProfile.target_displacement profile));
     ("target_azimuth",
      option_map PNum (TrajectoryProfile.target_azimuth profile))]%string.

(** Lines 103-107 *)
Definition set_start (start_point : list (string * R)) : list (string * R) :=
  [("north", dict_get start_point "north" 0);
   ("east", dict_get start_point "east" 0);
   ("tvd", dict_get start_point "tvd" 0)]%string.

(** [target_depth or 5000]: [None] and [0.0] are falsy. *)
Definition or_5000 (target_depth : option R) : R :=
  match target_depth with
  | Some d => if Req_dec_T d 0 then 5000 else d
  | None => 5000
  end.

Definition frame_has (df : WellFrame) (c : string) : bool :=
  existsb (String.eqb c) (frame_columns df).

(** [row[c]]: a missing column raises. *)
Definition row_getitem (df : WellFrame) (row : WellRow) (c : string)
  (cell_of : WellRow -> R) : option R :=
  if frame_has df c then Some (cell_of row) else None.

(** [row.get(c, default)] *)
Definition row_get (df : WellFrame) (row : WellRow) (c : string)
  (cell_of : WellRow -> R) (default : R) : R :=
  if frame_has df c then cell_of row else default.

(** Lines 119-126: the point built from one row. *)
Definition point_of_row (df : WellFrame) (row : WellRow) : option TrajectoryPoint :=
  md_ <~ row_getitem df row "md" w_md ;;
  tvd_ <~ row_getitem df row "tvd" w_tvd ;;
  inc_ <~ row_getitem df row "inc" w_inc ;;
  azi_ <~ row_getitem df row "azi" w_azi ;;
  Some {|
    md := md_; tvd := tvd_; inc := inc_; azi := azi_;
    north := Some (row_get df row "north" w_north 0);
    east := Some (row_get df row "east" w_east 0)
  |}.

(** Lines 117-126: [points] after the loop over [well.df.iterrows()]. *)
Fixpoint points_of_rows (df : WellFrame) (rows : list WellRow)
  : option (list TrajectoryPoint) :=
  match rows with
  | [] => Some []
  | row :: rows' =>
      point <~ point_of_row df row ;;
      points <~ points_of_rows df rows' ;;
      Some (point :: points)
  end.

(** The float held by a response field: the model has no NaN there, and a
    NaN (which no reachable path produces) stops the computation. *)
Definition number (a : float64) : option R :=
  match a with
  | Val x => Some x
  | NaN => None
  end.

(** The body of the [try] block. *)
Definition generate
  (wp_get : R -> list (string * R) -> list (string * param) -> option WellFrame)
  (request_hash : string) (request : TrajectoryRequest.t)
  : option WellTrajectory.t :=
  let profile := TrajectoryRequest.profile request in
  df <~ wp_get (or_5000 (TrajectoryProfile.target_depth profile))
               (set_start (TrajectoryRequest.start_point request))
               (profile_params profile) ;;
  points <~ points_of_rows df (frame_rows df) ;;
  match points with
  | p :: ps =>
      let last_point := last ps p in
      last_north <~ north last_point ;;
      last_east <~ east last_point ;;
      total_displacement <~
        number (np.sqrt (lift2 Rplus (sq (Val last_north)) (sq (Val last_east)))) ;;
      max_inclination <~
        number (builtin_max (Val (inc p)) (map (fun q => Val (inc q)) ps)) ;;
      max_dls <~
        (if frame_has df "dls"
         then number (Series_max (map w_dls (frame_rows df)))
         else Some 0) ;;
      Some {|
        WellTrajectory.id := "trajectory_" ++ request_hash;
        WellTrajectory.name := TrajectoryProfile.type profile ++ "-Profile";
        WellTrajectory.points := points;
        WellTrajectory.unit_system := TrajectoryRequest.unit_system request;
        WellTrajectory.start_point := TrajectoryRequest.start_point request;
        WellTrajectory.end_point :=
          [("north", last_north); ("east", last_east);
           ("tvd", tvd last_point)]%string;
        WellTrajectory.total_depth := md last_point;
        WellTrajectory.total_displacement := total_displacement;
        WellTrajectory.max_inclination := max_inclination;
        WellTrajectory.max_dls := max_dls
      |}
  | [] =>
      Some {|
        WellTrajectory.id := "trajectory_" ++ request_hash;
        WellTrajectory.name := TrajectoryProfile.type profile ++ "-Profile";
        WellTrajectory.points := points;
        WellTrajectory.unit_system := TrajectoryRequest.unit_system request;
        WellTrajectory.start_point := TrajectoryRequest.start_point request;
        WellTrajectory.end_point :=
          [("north", 0); ("east", 0); ("tvd", 0)]%string;
        WellTrajectory.total_depth := 0;
        WellTrajectory.total_displacement := 0;
        WellTrajectory.max_inclination := 0;
        WellTrajectory.max_dls := 0
      |}
  end.

Inductive generate_response : Type :=
| Generated (trajectory : WellTrajectory.t)
| GenerateFailed (status_code : nat).

(** [generate_trajectory]: any exception of the body becomes a 500. *)
Definition generate_trajectory
  (wp_get : R -> list (string * R) -> list (string * param) -> option WellFrame)
  (request_hash : string) (request : TrajectoryRequest.t) : generate_response :=
  match generate wp_get request_hash request with
  | Some trajectory => Generated trajectory
  | None => GenerateFailed 500
  end.

(** The point the loop builds from a row of a frame that has the four
    required columns. *)
Definition point_of (df : WellFrame) (row : WellRow) : TrajectoryPoint := {|
  md := w_md row; tvd := w_tvd row; inc := w_inc row; azi := w_azi row;
  north := Some (row_get df row "north" w_north 0);
  east := Some (row_get df row "east" w_east 0)
|}.

(** The frame has the columns the loop reads without a default. *)
Definition has_required_columns (df : WellFrame) : Prop :=
  frame_has df "md" = true /\ frame_has df "tvd" = true /\
  frame_has df "inc" = true /\ frame_has df "azi" = true.

(** A library stub that always builds the frame [df]. *)
Definition always (df : WellFrame)
  : R -> list (string * R) -> list (string * param) -> option WellFrame :=
  fun _ _ _ => Some df.

(** A library stub that always raises. *)
Definition always_raises
  : R -> list (string * R) -> list (string * param) -> option WellFrame :=
  fun _ _ _ => None.

(** A J-profile request with no optional field set. *)
Definition j_request : TrajectoryRequest.t := {|
  TrajectoryRequest.profile := {|
    TrajectoryProfile.type := "J";
    TrajectoryProfile.kop := None;
    TrajectoryProfile.eob := None;
    TrajectoryProfile.eod := None;
    TrajectoryProfile.build_angle := None;
    TrajectoryProfile.drop_angle := None;
    TrajectoryProfile.horizontal_length := None;
    TrajectoryProfile.target_depth := None;
    TrajectoryProfile.target_displacement := None;
    TrajectoryProfile.target_azimuth := None
  |};
  TrajectoryRequest.start_point := [];
  TrajectoryRequest.unit_system := "metric";
  TrajectoryRequest.step_size := 50;
  TrajectoryRequest.max_dls := 3
|}.

(** A frame of two rows with every column the handler reads. *)
Definition two_row_frame : WellFrame := {|
  frame_columns := ["md"; "tvd"; "north"; "east"; "inc"; "azi"; "dls"]%string;
  frame_rows :=
    [{| w_md := 0; w_tvd := 0; w_inc := 0; w_azi := 0;
        w_north := 0; w_east := 0; w_dls := 0 |};
     {| w_md := 100; w_tvd := 99; w_inc := 5; w_azi := 10;
        w_north := 3; w_east := 4; w_dls := 5 |}]
|}.

(** The same rows in a frame that lacks the [md] column. *)
Definition frame_without_md : WellFrame := {|
  frame_columns := ["tvd"; "inc"; "azi"]%string;
  frame_rows := frame_rows two_row_frame
|}.

(** A frame with columns and no row. *)
Definition empty_frame : WellFrame := {|
  frame_columns := ["md"; "tvd"; "north"; "east"; "inc"; "azi"; "dls"]%string;
  frame_rows := []
|}.

(** The frame the library answers the request with. *)
Definition library_frame
  (wp_get : R -> list (string * R) -> list (string * param) -> option WellFrame)
  (request : TrajectoryRequest.t) : option WellFrame :=
  wp_get (or_5000 (TrajectoryProfile.target_depth (TrajectoryRequest.profile request)))
         (set_start (TrajectoryRequest.start_point request))
         (profile_params (TrajectoryRequest.profile request)).

(** The trajectory generated from a frame [df] of rows [r :: rs] that has
    the required columns, field by field. *)
Definition generated_of (request_hash : string) (request : TrajectoryRequest.t)
  (df : WellFrame) (r : WellRow) (rs : list WellRow) : WellTrajectory.t :=
  let final := last rs r in
  {|
    WellTrajectory.id := "trajectory_" ++ request_hash;
    WellTrajectory.name :=
      TrajectoryProfile.type (TrajectoryRequest.profile request) ++ "-Profile";
    WellTrajectory.points := map (point_of df) (r :: rs);
    WellTrajectory.unit_system := TrajectoryRequest.unit_system request;
    WellTrajectory.start_point := TrajectoryRequest.start_point request;
    WellTrajectory.end_point :=
      [("north", row_get df final "north" w_north 0);
       ("east", row_get df final "east" w_east 0);
       ("tvd", w_tvd final)]%string;
    WellTrajectory.total_depth := w_md final;
    WellTrajectory.total_displacement :=
      R_sqrt.sqrt (row_get df final "north" w_north 0 ^ 2 +
                   row_get df final "east" w_east 0 ^ 2);
    WellTrajectory.max_inclination := fold_left Rmax (map w_inc rs) (w_inc r);
    WellTrajectory.max_dls :=
      if frame_has df "dls" then fold_left Rmax (map w_dls rs) (w_dls r) else 0
  |}.

(** A build section: vertical at surface, 5 degrees at 100, 10 degrees at
    300, all on the same heading. *)
Definition build_section : list TrajectoryPoint :=
  [station 0 0 0 0 0 0; station 100 100 5 0 4 0; station 300 298 10 0 30 0].

Lemma nth_error_middle (A : Type) (pre : list A) (a : A) (rest : list A) :
  nth_error (pre ++ a :: rest) (length pre) = Some a.
Proof.
  induction pre as [| x pre IH]; simpl; auto.
Qed.

Lemma dls_iteration_at (pre : list Row) (prev curr : Row) (rest : list Row)
  (dls_values : list float64) :
  dls_iteration (pre ++ prev :: curr :: rest) dls_values (S (length pre)) =
  Return (dls_values ++ dls_entry prev curr).
Proof.
  unfold dls_iteration, iloc.
  replace (S (length pre) - 1)%nat with (length pre) by lia.
  rewrite nth_error_middle. cbn [bind].
  replace (pre ++ prev :: curr :: rest) with ((pre ++ [prev]) ++ curr :: rest)
    by (rewrite <- app_assoc; reflexivity).
  replace (S (length pre)) with (length (pre ++ [prev]))
    by (rewrite length_app; simpl; lia).
  rewrite nth_error_middle. cbn [bind].
  unfold dls_entry. cbv zeta.
  destruct (Rgt_dec (row_md curr - row_md prev) 0).
  - reflexivity.
  - rewrite app_nil_r. reflexivity.
Qed.

Lemma for_in_dls_pairs (rest pre : list Row) (prev : Row) (acc : list float64) :
  for_in (seq (S (length pre)) (length rest))
         (dls_iteration (pre ++ prev :: rest)) acc =
  Return (acc ++ dls_pairs prev rest).
Proof.
  revert pre prev acc.
  induction rest as [| curr rest IH]; intros pre prev acc.
  - simpl. rewrite app_nil_r. reflexivity.
  - cbn [length seq for_in dls_pairs].
    rewrite dls_iteration_at. cbn [bind].
    specialize (IH (pre ++ [prev]) curr (acc ++ dls_entry prev curr)).
    rewrite <- app_assoc in IH. cbn [app] in IH.
    rewrite length_app in IH. cbn [length] in IH.
    replace (length pre + 1)%nat with (S (length pre)) in IH by lia.
    rewrite IH, app_assoc. reflexivity.
Qed.

(** The loop never raises: on a frame [first :: rest] it returns the
    contributions of the adjacent pairs, in order. *)
Lemma dls_series_cons (first : Row) (rest : list Row) :
  dls_series (first :: rest) = Return (dls_pairs first rest).
Proof.
  unfold dls_series. cbn [length].
  replace (S (length rest) - 1)%nat with (length rest) by lia.
  exact (for_in_dls_pairs rest [] first []).
Qed.

Lemma dls_series_nil : dls_series [] = Return [].
Proof. reflexivity. Qed.

(** ** Reading the frame *)

Lemma getitem_cell (r : Row) (rs : list Row) (c : string) (f : Row -> R) :
  In c (columns (r :: rs)) -> cell c = Some f ->
  getitem (r :: rs) c = Return (map f (r :: rs)).
Proof.
  intros Hin Hcell. unfold getitem, has_column.
  assert (existsb (String.eqb c) (columns (r :: rs)) = true) as ->.
  { apply existsb_exists. exists c. split; [exact Hin | apply String.eqb_refl]. }
  rewrite Hcell. reflexivity.
Qed.

Lemma getitem_nil (c : string) : getitem [] c = Raise KeyError.
Proof. reflexivity. Qed.

Lemma no_dls_column (df : DataFrame) : has_column "dls" df = false.
Proof. destruct df; reflexivity. Qed.

Lemma last_default (A : Type) (xs : list A) (z x y : A) :
  last (z :: xs) x = last (z :: xs) y.
Proof.
  revert z. induction xs as [| w xs IH]; intros z; [reflexivity |].
  change (last (w :: xs) x = last (w :: xs) y). apply IH.
Qed.

Lemma nth_error_last (A : Type) (xs : list A) (x : A) :
  nth_error (x :: xs) (length (x :: xs) - 1) = Some (last xs x).
Proof.
  cbn [length]. replace (S (length xs) - 1)%nat with (length xs) by lia.
  revert x. induction xs as [| y xs IH]; intros x; [reflexivity |].
  cbn [length nth_error]. rewrite IH.
  destruct xs as [| z xs]; [reflexivity |].
  f_equal. change (last (y :: z :: xs) x) with (last (z :: xs) x).
  apply last_default.
Qed.

Lemma last_of_map (A B : Type) (f : A -> B) (xs : list A) (x : A) :
  last (map f xs) (f x) = f (last xs x).
Proof.
  induction xs as [| y xs IH]; [reflexivity |].
  cbn [map]. destruct xs as [| z xs]; [reflexivity |].
  cbn [map] in *. exact IH.
Qed.

Lemma Series_iloc_last_map (f : TrajectoryPoint -> R) (p : TrajectoryPoint)
  (ps : list TrajectoryPoint) :
  Series_iloc_last (map f (p :: ps)) = Return (f (last ps p)).
Proof.
  unfold Series_iloc_last. cbn [map].
  rewrite nth_error_last, last_of_map. reflexivity.
Qed.

Lemma dls_statistics_cons (r : Row) (rs : list Row) :
  dls_statistics (r :: rs) = Return (dls_summary (dls_pairs r rs)).
Proof.
  unfold dls_statistics. rewrite no_dls_column. cbn [negb andb].
  destruct rs as [| c rs].
  - reflexivity.
  - replace (1 <? length (r :: c :: rs))%nat with true
      by (symmetry; apply Nat.ltb_lt; cbn [length]; lia).
    rewrite dls_series_cons. cbn [bind].
    unfold dls_summary. destruct (dls_pairs r (c :: rs)); reflexivity.
Qed.

Lemma analyze_cons (t : WellTrajectory.t) (p : TrajectoryPoint)
  (ps : list TrajectoryPoint) :
  WellTrajectory.points t = p :: ps ->
  analyze t = Return (analysis_of p ps).
Proof.
  intros Hpts. unfold analyze. rewrite Hpts. cbn [map].
  rewrite (getitem_cell _ _ "md" row_md) by (cbn; auto 10).
  rewrite (getitem_cell _ _ "north" row_north) by (cbn; auto 10).
  rewrite (getitem_cell _ _ "east" row_east) by (cbn; auto 10).
  rewrite (getitem_cell _ _ "inc" row_inc) by (cbn; auto 10).
  rewrite (getitem_cell _ _ "azi" row_azi) by (cbn; auto 10).
  rewrite (getitem_cell _ _ "tvd" row_tvd) by (cbn; auto 10).
  cbn [bind]. rewrite dls_statistics_cons.
  change (to_dict p :: map to_dict ps) with (map to_dict (p :: ps)).
  rewrite !map_map.
  rewrite (Series_iloc_last_map (fun q => or_0 (north q))).
  rewrite (Series_iloc_last_map (fun q => or_0 (east q))).
  cbn [bind map length]. rewrite !length_map.
  unfold analysis_of. cbn [map length bind]. reflexivity.
Qed.

(** ** Greatest elements and column maxima *)

Lemma fold_Rmax_greatest (xs : list R) (x : R) :
  greatest (fold_left Rmax xs x) (x :: xs).
Proof.
  revert x. induction xs as [| a xs IH]; intros x.
  - split; [left; reflexivity |].
    intros y [<- | []]. apply Rle_refl.
  - cbn [fold_left]. destruct (IH (Rmax x a)) as [Hin Hub]. split.
    + destruct Hin as [Heq | Hin]; [| right; right; exact Hin].
      rewrite <- Heq.
      destruct (Rmax_case x a (fun m => m = x \/ m = a)) as [H | H]; auto.
      * left. symmetry. exact H.
      * right. left. symmetry. exact H.
    + intros y [<- | [<- | Hy]].
      * apply Rle_trans with (Rmax x a); [apply Rmax_l | apply Hub; left; reflexivity].
      * apply Rle_trans with (Rmax x a); [apply Rmax_r | apply Hub; left; reflexivity].
      * apply Hub. right. exact Hy.
Qed.

Lemma greatest_unique (l : list R) (m m' : R) :
  greatest m l -> greatest m' l -> m = m'.
Proof.
  intros [Hin Hub] [Hin' Hub']. apply Rle_antisym; auto.
Qed.

Lemma greatest_Permutation (l l' : list R) (m : R) :
  Permutation l l' -> greatest m l -> greatest m l'.
Proof.
  intros Hperm [Hin Hub]. split.
  - eapply Permutation_in; eauto.
  - intros y Hy. apply Hub. eapply Permutation_in; [symmetry |]; eauto.
Qed.

Lemma Series_max_greatest (s : Series) (m : R) :
  Series_max s = Val m <-> greatest m s.
Proof.
  destruct s as [| x xs]; cbn [Series_max].
  - split; [discriminate | intros [[] _]].
  - split.
    + intros [= <-]. apply fold_Rmax_greatest.
    + intros H. f_equal. eapply greatest_unique; [apply fold_Rmax_greatest | exact H].
Qed.

Lemma Series_max_Permutation (s s' : Series) :
  Permutation s s' -> Series_max s = Series_max s'.
Proof.
  intros Hperm. destruct s as [| x xs].
  - apply Permutation_nil in Hperm. subst. reflexivity.
  - destruct s' as [| y ys].
    + symmetry in Hperm. apply Permutation_nil in Hperm. discriminate.
    + cbn [Series_max]. f_equal.
      apply greatest_unique with (l := y :: ys).
      * eapply greatest_Permutation; [exact Hperm | apply fold_Rmax_greatest].
      * apply fold_Rmax_greatest.
Qed.

(** ** The statistics of a non-empty survey *)

Lemma analyze_trajectory_cons (t : WellTrajectory.t) (p : TrajectoryPoint)
  (ps : list TrajectoryPoint) :
  WellTrajectory.points t = p :: ps ->
  analyze_trajectory t = OK (analysis_of p ps).
Proof.
  intros Hpts. unfold analyze_trajectory. rewrite (analyze_cons t p ps Hpts).
  reflexivity.
Qed.

Lemma np_sqrt_sum_squares (a b : R) :
  np.sqrt (Val (a ^ 2 + b ^ 2)) = Val (R_sqrt.sqrt (a ^ 2 + b ^ 2)).
Proof.
  unfold np.sqrt. destruct (Rle_dec 0 (a ^ 2 + b ^ 2)) as [_ | Hneg]; [reflexivity |].
  exfalso. apply Hneg. nra.
Qed.

Ltac decide_order :=
  repeat match goal with
  | |- context [Rgt_dec ?a ?b] => destruct (Rgt_dec a b); try lra
  | |- context [Rlt_dec ?a ?b] => destruct (Rlt_dec a b); try lra
  | |- context [Rle_dec ?a ?b] => destruct (Rle_dec a b); try lra
  end.

(** ** C1: total displacement *)

(** C1, as amended.  For every non-empty survey the handler answers, and
    [total_displacement] is [sqrt (n^2 + e^2)] where [n] is the greatest
    north offset of the survey and [e] its greatest east offset, each taken
    over the whole column (absent offsets counting as 0).  It is the
    horizontal norm of the greatest-md point when that point holds both
    column maxima. *)
Theorem C1_total_displacement_column_maxima (t : WellTrajectory.t) :
  WellTrajectory.points t <> [] ->
  exists r n e,
    analyze_trajectory t = OK r /\
    greatest n (map (fun q => or_0 (north q)) (WellTrajectory.points t)) /\
    greatest e (map (fun q => or_0 (east q)) (WellTrajectory.points t)) /\
    total_displacement r = Val (R_sqrt.sqrt (n ^ 2 + e ^ 2)) /\
    (forall p, max_md_row p (WellTrajectory.points t) ->
       or_0 (north p) = n -> or_0 (east p) = e ->
       total_displacement r = Val (horizontal_norm p)).
Proof.
  intros Hne. destruct (WellTrajectory.points t) as [| p ps] eqn:Hpts; [easy |].
  exists (analysis_of p ps).
  exists (fold_left Rmax (map (fun q => or_0 (north q)) ps) (or_0 (north p))).
  exists (fold_left Rmax (map (fun q => or_0 (east q)) ps) (or_0 (east p))).
  split; [apply analyze_trajectory_cons; exact Hpts |].
  split; [apply (fold_Rmax_greatest (map _ ps)) |].
  split; [apply (fold_Rmax_greatest (map _ ps)) |].
  cbn [total_displacement analysis_of]. rewrite np_sqrt_sum_squares.
  split; [reflexivity |].
  intros q _ Hn He. unfold horizontal_norm. rewrite Hn, He. reflexivity.
Qed.

Lemma C1_total_displacement_column_maxima_witness :
  WellTrajectory.points (survey dogleg_back) <> [] /\
  exists r n e,
    analyze_trajectory (survey dogleg_back) = OK r /\
    greatest n (map (fun q => or_0 (north q)) dogleg_back) /\
    greatest e (map (fun q => or_0 (east q)) dogleg_back) /\
    total_displacement r = Val (R_sqrt.sqrt (n ^ 2 + e ^ 2)) /\
    (forall p, max_md_row p dogleg_back ->
       or_0 (north p) = n -> or_0 (east p) = e ->
       total_displacement r = Val (horizontal_norm p)).
Proof.
  split; [discriminate |].
  apply (C1_total_displacement_column_maxima (survey dogleg_back)). discriminate.
Defined.

Lemma sqrt_3_4 : R_sqrt.sqrt (3 ^ 2 + 4 ^ 2) = 5.
Proof.
  replace (3 ^ 2 + 4 ^ 2) with (5 ^ 2) by lra. apply sqrt_pow2. lra.
Qed.

Lemma sqrt_0_4 : R_sqrt.sqrt (0 ^ 2 + 4 ^ 2) = 4.
Proof.
  replace (0 ^ 2 + 4 ^ 2) with (4 ^ 2) by lra. apply sqrt_pow2. lra.
Qed.

(** C1 fails as stated: on [dogleg_back] the greatest-md point is the second
    one, 4 away from the origin, and the handler answers 5, the norm of the
    column maxima (3 north from the first point, 4 east from the second). *)
Lemma C1_counterexample :
  exists r,
    analyze_trajectory (survey dogleg_back) = OK r /\
    max_md_row (station 100 90 10 90 0 4) dogleg_back /\
    horizontal_norm (station 100 90 10 90 0 4) = 4 /\
    total_displacement r = Val 5 /\
    total_displacement r <> Val (horizontal_norm (station 100 90 10 90 0 4)).
Proof.
  exists (analysis_of (station 0 0 0 0 3 0) [station 100 90 10 90 0 4]).
  assert (Hnorm : horizontal_norm (station 100 90 10 90 0 4) = 4)
    by (unfold horizontal_norm; cbn; apply sqrt_0_4).
  assert (Hcode : total_displacement
                    (analysis_of (station 0 0 0 0 3 0) [station 100 90 10 90 0 4])
                  = Val 5).
  { cbn [total_displacement analysis_of]. rewrite np_sqrt_sum_squares.
    cbn [map fold_left station north east or_0].
    rewrite (Rmax_left 3 0) by lra. rewrite (Rmax_right 0 4) by lra.
    rewrite sqrt_3_4. reflexivity. }
  split; [apply analyze_trajectory_cons; reflexivity |].
  split.
  { split; [right; left; reflexivity |].
    intros q [<- | [<- | []]]; cbn; lra. }
  split; [exact Hnorm |].
  split; [exact Hcode |].
  rewrite Hcode, Hnorm. intros [= H]. lra.
Qed.

(** ** C2: the domain of the inverse cosine *)

Lemma radians_0 : np.radians 0 = 0.
Proof. unfold np.radians. lra. Qed.

Lemma radians_90 : np.radians 90 = PI / 2.
Proof. unfold np.radians. lra. Qed.

Lemma radians_180 : np.radians 180 = PI.
Proof. unfold np.radians. lra. Qed.

Lemma arccos_in_domain (x : R) :
  -1 <= x <= 1 -> np.arccos x = Val (acos x).
Proof.
  intros [Hlo Hhi]. unfold np.arccos.
  destruct (Rle_dec (-1) x); [| contradiction].
  destruct (Rle_dec x 1); [reflexivity | contradiction].
Qed.

Lemma arccos_nan_iff (x : R) :
  np.arccos x = NaN <-> x < -1 \/ 1 < x.
Proof.
  unfold np.arccos.
  destruct (Rle_dec (-1) x) as [Hlo | Hlo]; [destruct (Rle_dec x 1) as [Hhi | Hhi] |].
  - split; [discriminate | lra].
  - split; [intros _; right; lra | reflexivity].
  - split; [intros _; left; lra | reflexivity].
Qed.

Lemma lift1_nan_iff (f : R -> R) (a : float64) :
  lift1 f a = NaN <-> a = NaN.
Proof. destruct a; cbn; split; congruence. Qed.

(** C2, as amended.  The argument of the inverse cosine is not clamped.
    When two consecutive stations have the same inclination and the same
    azimuth the argument is exactly 1 and the dogleg angle is exactly 0;
    whenever the argument lies in [-1, 1] the angle is the number
    [degrees (acos argument)]; and the angle is NaN exactly when the
    argument is below -1 or above 1. *)
Theorem C2_dogleg_defined_iff_argument_in_domain (prev curr : Row) :
  (row_inc curr = row_inc prev -> row_azi curr = row_azi prev ->
     arccos_argument prev curr = 1 /\ dogleg prev curr = Val 0) /\
  (-1 <= arccos_argument prev curr <= 1 ->
     dogleg prev curr = Val (np.degrees (acos (arccos_argument prev curr)))) /\
  (dogleg prev curr = NaN <->
     arccos_argument prev curr < -1 \/ 1 < arccos_argument prev curr).
Proof.
  split; [| split].
  - intros Hinc Hazi.
    assert (Harg : arccos_argument prev curr = 1).
    { unfold arccos_argument, azimuth_delta. rewrite Hinc, Hazi.
      replace (row_azi prev - row_azi prev) with 0 by lra.
      replace (row_inc prev - row_inc prev) with 0 by lra.
      cbv zeta. decide_order. rewrite radians_0, cos_0. lra. }
    split; [exact Harg |].
    unfold dogleg. rewrite Harg, arccos_in_domain by lra.
    cbn [lift1]. rewrite acos_1. f_equal. unfold Rdiv. lra.
  - intros Hdom. unfold dogleg. rewrite arccos_in_domain by exact Hdom.
    cbn [lift1]. f_equal. unfold np.degrees, np.pi, Rdiv. ring.
  - unfold dogleg. rewrite lift1_nan_iff. apply arccos_nan_iff.
Qed.

Lemma hairpin_argument :
  arccos_argument (to_dict (station 0 0 90 0 0 0))
                  (to_dict (station 100 0 90 180 100 0)) = 3.
Proof.
  unfold arccos_argument, azimuth_delta. cbn [to_dict station row_inc row_azi inc azi].
  replace (180 - 0) with 180 by lra. replace (90 - 90) with 0 by lra.
  cbv zeta. decide_order.
  rewrite radians_0, radians_90, radians_180, cos_0, sin_PI2, cos_PI. lra.
Qed.

(** C2 fails as stated: between two horizontal stations (inclination 90)
    whose azimuths are 0 and 180 the argument of the inverse cosine is 3,
    nothing clamps it, the dogleg angle is NaN, and so are both DLS
    statistics of the response. *)
Lemma C2_counterexample :
  arccos_argument (to_dict (station 0 0 90 0 0 0))
                  (to_dict (station 100 0 90 180 100 0)) = 3 /\
  dogleg (to_dict (station 0 0 90 0 0 0))
         (to_dict (station 100 0 90 180 100 0)) = NaN /\
  exists r,
    analyze_trajectory (survey hairpin) = OK r /\
    max_dls r = NaN /\ avg_dls r = NaN.
Proof.
  assert (Hnan : dogleg (to_dict (station 0 0 90 0 0 0))
                        (to_dict (station 100 0 90 180 100 0)) = NaN).
  { unfold dogleg. rewrite lift1_nan_iff. apply arccos_nan_iff.
    rewrite hairpin_argument. lra. }
  split; [exact hairpin_argument |].
  split; [exact Hnan |].
  exists (analysis_of (station 0 0 90 0 0 0) [station 100 0 90 180 100 0]).
  split; [apply analyze_trajectory_cons; reflexivity |].
  cbn [max_dls avg_dls analysis_of map dls_pairs]. unfold dls_entry.
  cbn [to_dict station row_md md]. cbv zeta.
  destruct (Rgt_dec (100 - 0) 0) as [_ | Hle]; [| lra].
  change (to_dict {| md := 0; tvd := 0; inc := 90; azi := 0;
                     north := Some 0; east := Some 0 |})
    with (to_dict (station 0 0 90 0 0 0)).
  change (to_dict {| md := 100; tvd := 0; inc := 90; azi := 180;
                     north := Some 100; east := Some 0 |})
    with (to_dict (station 100 0 90 180 100 0)).
  rewrite Hnan. split; reflexivity.
Qed.

(** ** The closure azimuth *)











Lemma last_of_snoc (A : Type) (pre : list A) (final p : A) (ps : list A) :
  p :: ps = pre ++ [final] -> last ps p = final.
Proof.
  destruct pre as [| a pre]; cbn [app]; intros [= -> ->].
  - reflexivity.
  - apply last_last.
Qed.

Lemma degrees_quarter_turn : np.degrees (PI / 2) = 90.
Proof.
  pose proof PI_RGT_0. unfold np.degrees. field. lra.
Qed.

Lemma degrees_0 : np.degrees 0 = 0.
Proof. unfold np.degrees. lra. Qed.

Lemma arctan2_due_north (x : R) : 0 <= x -> np.arctan2 0 x = 0.
Proof.
  intros Hx. unfold np.arctan2.
  destruct (Rlt_dec 0 x) as [Hpos | Hnpos].
  - unfold Rdiv. rewrite Rmult_0_l. apply atan_0.
  - destruct (Rlt_dec x 0); [lra |].
    destruct (Rlt_dec 0 0); [lra | reflexivity].
Qed.


Lemma arctan2_due_east : np.arctan2 1 0 = PI / 2.
Proof. unfold np.arctan2. decide_order. Qed.

(** ** C3: closure azimuth *)




(** ** C4: the single station *)

(** C4, as amended.  On a survey of exactly one station the handler answers
    with [max_dls] and [avg_dls] equal to 0, with [max_azimuth] equal to the
    azimuth of the station, and with [closure_azimuth] equal to
    [degrees (atan2 east north)] of the station, which is 0 when the station
    has no east offset and a non-negative north offset. *)
Theorem C4_single_station (t : WellTrajectory.t) (p : TrajectoryPoint) :
  WellTrajectory.points t = [p] ->
  exists r,
    analyze_trajectory t = OK r /\
    max_dls r = Val 0 /\
    avg_dls r = Val 0 /\
    max_azimuth r = Val (azi p) /\
    closure_azimuth r =
      Val (np.degrees (np.arctan2 (or_0 (east p)) (or_0 (north p)))) /\
    (or_0 (east p) = 0 -> 0 <= or_0 (north p) -> closure_azimuth r = Val 0).
Proof.
  intros Hone. exists (analysis_of p []).
  split; [apply analyze_trajectory_cons; exact Hone |].
  repeat (split; [reflexivity |]).
  intros He Hn. cbn [closure_azimuth analysis_of last].
  rewrite He, (arctan2_due_north _ Hn), degrees_0. reflexivity.
Qed.

Lemma C4_single_station_witness :
  WellTrajectory.points (survey [east_station]) = [east_station] /\
  exists r,
    analyze_trajectory (survey [east_station]) = OK r /\
    max_dls r = Val 0 /\
    avg_dls r = Val 0 /\
    max_azimuth r = Val (azi east_station) /\
    closure_azimuth r =
      Val (np.degrees (np.arctan2 (or_0 (east east_station))
                                  (or_0 (north east_station)))) /\
    (or_0 (east east_station) = 0 -> 0 <= or_0 (north east_station) ->
     closure_azimuth r = Val 0).
Proof.
  split; [reflexivity |].
  apply (C4_single_station (survey [east_station]) east_station). reflexivity.
Defined.

(** C4 fails as stated: a single station heading 10 degrees, one unit due
    east of the origin, is answered with [max_azimuth] 10 and
    [closure_azimuth] 90, neither of them 0. *)
Lemma C4_counterexample :
  (length (WellTrajectory.points (survey [east_station])) = 1)%nat /\
  exists r,
    analyze_trajectory (survey [east_station]) = OK r /\
    max_azimuth r = Val 10 /\
    closure_azimuth r = Val 90 /\
    max_azimuth r <> Val 0 /\
    closure_azimuth r <> Val 0.
Proof.
  split; [reflexivity |].
  exists (analysis_of east_station []).
  assert (Hclosure : closure_azimuth (analysis_of east_station []) = Val 90).
  { cbn [closure_azimuth analysis_of last east_station station east north or_0].
    rewrite arctan2_due_east, degrees_quarter_turn. reflexivity. }
  split; [apply analyze_trajectory_cons; reflexivity |].
  split; [reflexivity |].
  split; [exact Hclosure |].
  split.
  - cbn. intros [= H]. lra.
  - rewrite Hclosure. intros [= H]. lra.
Qed.

(** ** C5: the dogleg formula *)

Lemma lift1_ext (f g : R -> R) (a : float64) :
  (forall x, f x = g x) -> lift1 f a = lift1 g a.
Proof.
  intros Hfg. destruct a; cbn; [rewrite Hfg |]; reflexivity.
Qed.

Lemma dogleg_spec (prev curr : Row) :
  dogleg prev curr =
  spec_dogleg_deg (row_inc prev) (row_inc curr) (azimuth_delta prev curr).
Proof.
  unfold dogleg, spec_dogleg_deg, arccos_argument. cbv zeta.
  apply lift1_ext. intros x. unfold np.degrees, np.pi, Rdiv. ring.
Qed.

(** C5.  At an index [i] whose rows [prev = df.iloc[i-1]] and
    [curr = df.iloc[i]] have a positive measured-depth difference, the
    dogleg angle is
    [degrees (arccos (cos (radians delta_inc) + sin (radians inc_prev) *
    sin (radians inc_curr) * (1 - cos (radians delta_azi))))]
    with [delta_inc = inc_curr - inc_prev] and [delta_azi] the wrapped azimuth
    difference, and the loop appends [(dogleg_deg / delta_md) * 100]. *)
Theorem C5_dogleg_formula (df : DataFrame) (dls_values : list float64) (i : nat)
  (prev curr : Row) :
  nth_error df (i - 1) = Some prev ->
  nth_error df i = Some curr ->
  row_md curr - row_md prev > 0 ->
  dogleg prev curr =
    spec_dogleg_deg (row_inc prev) (row_inc curr) (azimuth_delta prev curr) /\
  dls_iteration df dls_values i =
    Return (dls_values ++
            [spec_dls_per_100
               (spec_dogleg_deg (row_inc prev) (row_inc curr)
                                (azimuth_delta prev curr))
               (row_md curr - row_md prev)]).
Proof.
  intros Hprev Hcurr Hmd. split; [apply dogleg_spec |].
  unfold dls_iteration, iloc. rewrite Hprev, Hcurr. cbn [bind].
  destruct (Rgt_dec (row_md curr - row_md prev) 0) as [_ | Hle]; [| contradiction].
  rewrite dogleg_spec. reflexivity.
Qed.

Lemma C5_dogleg_formula_witness :
  let df := map to_dict across_north in
  let prev := to_dict (station 0 0 5 350 0 0) in
  let curr := to_dict (station 100 99 5 10 1 2) in
  dogleg prev curr =
    spec_dogleg_deg (row_inc prev) (row_inc curr) (azimuth_delta prev curr) /\
  dls_iteration df [] 1 =
    Return ([] ++
            [spec_dls_per_100
               (spec_dogleg_deg (row_inc prev) (row_inc curr)
                                (azimuth_delta prev curr))
               (row_md curr - row_md prev)]).
Proof.
  apply (C5_dogleg_formula (map to_dict across_north) [] 1
           (to_dict (station 0 0 5 350 0 0)) (to_dict (station 100 99 5 10 1 2))).
  - reflexivity.
  - reflexivity.
  - cbn. lra.
Defined.

(** ** C6: the azimuth difference *)

(** C6, as amended.  The azimuth difference used in the dogleg computation
    is [d = azi curr - azi prev], less 360 when [d > 180], plus 360 when
    [d < -180], and [d] itself otherwise.  For azimuths in [0, 360) it lies
    in the closed interval [-180, 180], and it exceeds -180 unless [d] is
    exactly -180.  Azimuths 350 then 10 give 20. *)
Theorem C6_azimuth_wrap (prev curr : Row) :
  arccos_argument prev curr =
    cos (np.radians (row_inc curr - row_inc prev)) +
    sin (np.radians (row_inc prev)) * sin (np.radians (row_inc curr)) *
    (1 - cos (np.radians (azimuth_delta prev curr))) /\
  (row_azi curr - row_azi prev > 180 ->
     azimuth_delta prev curr = row_azi curr - row_azi prev - 360) /\
  (row_azi curr - row_azi prev < -180 ->
     azimuth_delta prev curr = row_azi curr - row_azi prev + 360) /\
  (-180 <= row_azi curr - row_azi prev <= 180 ->
     azimuth_delta prev curr = row_azi curr - row_azi prev) /\
  (0 <= row_azi prev < 360 -> 0 <= row_azi curr < 360 ->
     -180 <= azimuth_delta prev curr <= 180 /\
     (row_azi curr - row_azi prev <> -180 -> -180 < azimuth_delta prev curr)) /\
  (row_azi prev = 350 -> row_azi curr = 10 -> azimuth_delta prev curr = 20).
Proof.
  split; [reflexivity |].
  unfold azimuth_delta. cbv zeta.
  repeat split; intros; decide_order.
Qed.

(** C6 fails as stated: azimuths 180 then 0, both in [0, 360), give the
    difference -180, which the second test (strictly below -180) leaves as
    it is, outside (-180, 180]. *)
Lemma C6_counterexample :
  0 <= row_azi (to_dict (station 0 0 5 180 0 0)) < 360 /\
  0 <= row_azi (to_dict (station 100 99 5 0 1 2)) < 360 /\
  azimuth_delta (to_dict (station 0 0 5 180 0 0))
                (to_dict (station 100 99 5 0 1 2)) = -180 /\
  ~ (-180 < azimuth_delta (to_dict (station 0 0 5 180 0 0))
                          (to_dict (station 100 99 5 0 1 2)) <= 180).
Proof.
  assert (H : azimuth_delta (to_dict (station 0 0 5 180 0 0))
                            (to_dict (station 100 99 5 0 1 2)) = -180).
  { unfold azimuth_delta. cbn [to_dict station row_azi azi]. cbv zeta.
    decide_order. }
  cbn [to_dict station row_azi azi] in *.
  repeat split; lra.
Qed.

(** ** C7: the length of the series *)

Lemma dls_entry_length (prev curr : Row) :
  length (dls_entry prev curr) =
  if Rgt_dec (row_md curr - row_md prev) 0 then 1%nat else 0%nat.
Proof.
  unfold dls_entry. cbv zeta.
  destruct (Rgt_dec (row_md curr - row_md prev) 0); reflexivity.
Qed.

Lemma positive_intervals_cons (p q : TrajectoryPoint) (ps : list TrajectoryPoint) :
  positive_intervals (p :: q :: ps) =
  ((if Rgt_dec (md q - md p) 0 then 1 else 0) + positive_intervals (q :: ps))%nat.
Proof. reflexivity. Qed.

Lemma dls_pairs_length (ps : list TrajectoryPoint) (p : TrajectoryPoint) :
  length (dls_pairs (to_dict p) (map to_dict ps)) = positive_intervals (p :: ps).
Proof.
  revert p. induction ps as [| q ps IH]; intros p; [reflexivity |].
  rewrite positive_intervals_cons. cbn [map dls_pairs].
  rewrite length_app, dls_entry_length, IH. reflexivity.
Qed.

Lemma positive_intervals_bound (ps : list TrajectoryPoint) (p : TrajectoryPoint) :
  (positive_intervals (p :: ps) <= length ps)%nat.
Proof.
  revert p. induction ps as [| q ps IH]; intros p; [apply Nat.le_refl |].
  rewrite positive_intervals_cons. specialize (IH q). cbn [length].
  destruct (Rgt_dec (md q - md p) 0); lia.
Qed.

Lemma positive_intervals_increasing (ps : list TrajectoryPoint) (p : TrajectoryPoint) :
  md_increasing (p :: ps) -> positive_intervals (p :: ps) = length ps.
Proof.
  revert p. induction ps as [| q ps IH]; intros p Hinc; [reflexivity |].
  rewrite positive_intervals_cons. cbn [length].
  inversion Hinc as [| ? ? Hrest Hhd]; subst.
  inversion Hhd as [| ? ? Hpq]; subst.
  rewrite (IH q Hrest).
  destruct (Rgt_dec (md q - md p) 0); [reflexivity | contradiction].
Qed.

Lemma dls_iteration_skip (df : DataFrame) (dls_values : list float64) (i : nat)
  (prev curr : Row) :
  nth_error df (i - 1) = Some prev ->
  nth_error df i = Some curr ->
  row_md curr - row_md prev <= 0 ->
  dls_iteration df dls_values i = Return dls_values.
Proof.
  intros Hprev Hcurr Hmd. unfold dls_iteration, iloc.
  rewrite Hprev, Hcurr. cbn [bind].
  destruct (Rgt_dec (row_md curr - row_md prev) 0); [lra | reflexivity].
Qed.

Lemma dls_series_of_survey (pts : list TrajectoryPoint) :
  dls_series (map to_dict pts) =
  Return match pts with
         | [] => []
         | p :: ps => dls_pairs (to_dict p) (map to_dict ps)
         end.
Proof.
  destruct pts as [| p ps]; [reflexivity |]. apply dls_series_cons.
Qed.

(** C7.  For a survey of n points the loop returns a series of at most
    n - 1 entries; the series has one entry per interval whose
    measured-depth difference is positive, hence exactly n - 1 entries when
    every consecutive difference is positive; and an iteration whose
    difference is zero or negative leaves the series as it was. *)
Theorem C7_dls_series_length (t : WellTrajectory.t) :
  exists s,
    dls_series (map to_dict (WellTrajectory.points t)) = Return s /\
    (WellTrajectory.points t <> [] ->
       exists r, analyze_trajectory t = OK r /\
                 (max_dls r, avg_dls r) = dls_summary s) /\
    (length s <= length (WellTrajectory.points t) - 1)%nat /\
    length s = positive_intervals (WellTrajectory.points t) /\
    (md_increasing (WellTrajectory.points t) ->
       length s = (length (WellTrajectory.points t) - 1)%nat) /\
    (forall i prev curr dls_values,
       nth_error (map to_dict (WellTrajectory.points t)) (i - 1) = Some prev ->
       nth_error (map to_dict (WellTrajectory.points t)) i = Some curr ->
       row_md curr - row_md prev <= 0 ->
       dls_iteration (map to_dict (WellTrajectory.points t)) dls_values i =
       Return dls_values).
Proof.
  rewrite dls_series_of_survey.
  destruct (WellTrajectory.points t) as [| p ps] eqn:Hpts.
  - exists []. repeat split; auto; try contradiction.
    intros i prev curr dls_values Hprev. destruct (i - 1)%nat; discriminate.
  - exists (dls_pairs (to_dict p) (map to_dict ps)).
    split; [reflexivity |].
    split.
    { intros _. exists (analysis_of p ps).
      split; [apply analyze_trajectory_cons; exact Hpts |].
      cbn [max_dls avg_dls analysis_of]. symmetry. apply surjective_pairing. }
    rewrite dls_pairs_length. cbn [length].
    replace (S (length ps) - 1)%nat with (length ps) by lia.
    split; [apply positive_intervals_bound |].
    split; [reflexivity |].
    split; [apply positive_intervals_increasing |].
    intros i prev curr dls_values. apply dls_iteration_skip.
Qed.

(** ** C8: maximum and mean of the series *)

Lemma builtin_max_numbers (xs : list R) (x : R) :
  builtin_max (Val x) (map Val xs) = Val (fold_left Rmax xs x).
Proof.
  unfold builtin_max. revert x.
  induction xs as [| a xs IH]; intros x; [reflexivity |].
  cbn [map fold_left float_gt].
  replace (if (if Rgt_dec a x then true else false) then Val a else Val x)
    with (Val (Rmax x a)); [apply IH |].
  unfold Rmax.
  destruct (Rgt_dec a x); destruct (Rle_dec x a); f_equal; lra.
Qed.

Lemma fold_Rplus_Rsum (xs : list R) (a : R) :
  fold_left Rplus xs a = a + Rsum xs.
Proof.
  revert a. induction xs as [| x xs IH]; intros a; cbn [fold_left Rsum fold_right].
  - lra.
  - rewrite IH. unfold Rsum. lra.
Qed.

Lemma sum_numbers (xs : list R) (a : R) :
  fold_left (lift2 Rplus) (map Val xs) (Val a) = Val (fold_left Rplus xs a).
Proof.
  revert a. induction xs as [| x xs IH]; intros a; [reflexivity |].
  cbn [map fold_left lift2]. apply IH.
Qed.

Lemma mean_numbers (xs : list R) :
  xs <> [] -> np.mean (map Val xs) = Val (Rsum xs / INR (length xs)).
Proof.
  intros Hne. destruct xs as [| x xs]; [contradiction |].
  unfold np.mean. cbn [map]. change (Val x :: map Val xs) with (map Val (x :: xs)).
  rewrite sum_numbers, fold_Rplus_Rsum, length_map. cbn [lift2].
  f_equal. f_equal. lra.
Qed.

Lemma dls_summary_numbers (xs : list R) :
  xs <> [] ->
  exists m,
    greatest m xs /\
    dls_summary (map Val xs) = (Val m, Val (Rsum xs / INR (length xs))).
Proof.
  intros Hne. destruct xs as [| x xs]; [contradiction |].
  exists (fold_left Rmax xs x). split; [apply fold_Rmax_greatest |].
  unfold dls_summary. cbn [map]. rewrite builtin_max_numbers.
  change (Val x :: map Val xs) with (map Val (x :: xs)).
  rewrite mean_numbers by discriminate. reflexivity.
Qed.

(** The statistics of the series of a non-empty survey.  When the series is
    empty (exactly one point, or every interval skipped, as for two points
    of identical measured depth) [max_dls] and [avg_dls] are both 0.  When
    it is not empty [max_dls] is Python's [max] of the series and [avg_dls]
    its [np.mean]; on a series of numbers these are its greatest element and
    its sum divided by its length. *)
Theorem dls_statistics_of_survey (t : WellTrajectory.t) :
  WellTrajectory.points t <> [] ->
  exists r s,
    analyze_trajectory t = OK r /\
    dls_series (map to_dict (WellTrajectory.points t)) = Return s /\
    (s = [] -> max_dls r = Val 0 /\ avg_dls r = Val 0) /\
    (forall v vs, s = v :: vs ->
       max_dls r = builtin_max v vs /\ avg_dls r = np.mean s) /\
    (forall xs, s <> [] -> s = map Val xs ->
       exists m, greatest m xs /\
                 max_dls r = Val m /\
                 avg_dls r = Val (Rsum xs / INR (length xs))) /\
    (positive_intervals (WellTrajectory.points t) = 0%nat -> s = []) /\
    ((length (WellTrajectory.points t) < 2)%nat -> s = []) /\
    (forall p q, WellTrajectory.points t = [p; q] -> md p = md q -> s = []).
Proof.
  intros Hne. rewrite dls_series_of_survey.
  destruct (WellTrajectory.points t) as [| p ps] eqn:Hpts; [contradiction |].
  exists (analysis_of p ps), (dls_pairs (to_dict p) (map to_dict ps)).
  split; [apply analyze_trajectory_cons; exact Hpts |].
  split; [reflexivity |].
  cbn [max_dls avg_dls analysis_of].
  split; [intros ->; split; reflexivity |].
  split; [intros v vs ->; split; reflexivity |].
  split.
  { intros xs Hs Hxs. rewrite Hxs in *.
    assert (Hx : xs <> []) by (intros ->; apply Hs; reflexivity).
    destruct (dls_summary_numbers xs Hx) as (m & Hm & Hsum).
    exists m. rewrite Hsum. repeat split; apply Hm. }
  assert (Hskip : positive_intervals (p :: ps) = 0%nat ->
                  dls_pairs (to_dict p) (map to_dict ps) = []).
  { intros Hzero. apply length_zero_iff_nil. rewrite dls_pairs_length. exact Hzero. }
  split; [exact Hskip |].
  split.
  - intros Hlen. apply Hskip. destruct ps as [| q ps]; [reflexivity |].
    cbn [length] in Hlen. lia.
  - intros p' q' [= -> ->] Hmd. apply Hskip. rewrite positive_intervals_cons.
    destruct (Rgt_dec (md q' - md p') 0); [lra | reflexivity].
Qed.

Lemma dls_statistics_of_survey_example :
  WellTrajectory.points (survey end_to_end) <> [] /\
  exists r s,
    analyze_trajectory (survey end_to_end) = OK r /\
    dls_series (map to_dict end_to_end) = Return s /\
    (s = [] -> max_dls r = Val 0 /\ avg_dls r = Val 0) /\
    (forall v vs, s = v :: vs ->
       max_dls r = builtin_max v vs /\ avg_dls r = np.mean s) /\
    (forall xs, s <> [] -> s = map Val xs ->
       exists m, greatest m xs /\
                 max_dls r = Val m /\
                 avg_dls r = Val (Rsum xs / INR (length xs))) /\
    (positive_intervals end_to_end = 0%nat -> s = []) /\
    ((length end_to_end < 2)%nat -> s = []) /\
    (forall p q, end_to_end = [p; q] -> md p = md q -> s = []).
Proof.
  split; [discriminate |].
  apply (dls_statistics_of_survey (survey end_to_end)). discriminate.
Qed.

(** C8 at the empty survey.  The empty survey has fewer than 2 points and
    the loop over it yields an empty series, yet the handler answers with
    status 500 (the frame has no [md] column, and reading it raises), not
    with [max_dls] and [avg_dls] equal to 0. *)
Theorem C8_empty_survey_raises :
  (length (WellTrajectory.points (survey [])) < 2)%nat /\
  dls_series (map to_dict (WellTrajectory.points (survey []))) = Return [] /\
  analyze_trajectory (survey []) = HTTPException 500 /\
  ~ (exists r, analyze_trajectory (survey []) = OK r /\
               max_dls r = Val 0 /\ avg_dls r = Val 0).
Proof.
  split; [cbn; lia |].
  split; [reflexivity |].
  split; [reflexivity |].
  intros (r & Hr & _). discriminate Hr.
Qed.

(** ** C9: the end-to-end example *)

Lemma end_to_end_dogleg :
  dogleg (to_dict (station 0 0 0 0 0 0)) (to_dict (station 100 99 5 10 1 2)) = Val 5.
Proof.
  pose proof PI_RGT_0 as Hpi.
  assert (Harg : arccos_argument (to_dict (station 0 0 0 0 0 0))
                                 (to_dict (station 100 99 5 10 1 2))
                 = cos (np.radians 5)).
  { unfold arccos_argument. cbn [to_dict station row_inc inc]. cbv zeta.
    replace (5 - 0) with 5 by lra.
    rewrite radians_0, sin_0. lra. }
  unfold dogleg. rewrite Harg.
  rewrite arccos_in_domain by (pose proof (COS_bound (np.radians 5)); lra).
  cbn [lift1]. f_equal.
  rewrite acos_cos by (unfold np.radians; lra).
  unfold np.radians, np.pi. field. lra.
Qed.

Lemma end_to_end_series :
  dls_pairs (to_dict (station 0 0 0 0 0 0)) [to_dict (station 100 99 5 10 1 2)]
  = [Val 5].
Proof.
  cbn [dls_pairs]. unfold dls_entry. rewrite end_to_end_dogleg.
  cbn [to_dict station row_md md lift1 app]. cbv zeta.
  destruct (Rgt_dec (100 - 0) 0) as [_ | Hle]; [| lra].
  cbn [app]. f_equal. f_equal. lra.
Qed.

(** C9.  On the two stations of the end-to-end example the handler answers
    with [point_count] 2, [total_length] 100 and [vertical_section] 99; the
    series has exactly one entry, the number 5, and [max_dls] and [avg_dls]
    are both that entry. *)
Theorem C9_end_to_end :
  exists r x,
    analyze_trajectory (survey end_to_end) = OK r /\
    point_count r = 2%nat /\
    total_length r = Val 100 /\
    vertical_section r = Val 99 /\
    dls_series (map to_dict end_to_end) = Return [Val x] /\
    max_dls r = Val x /\
    avg_dls r = Val x /\
    x = 5.
Proof.
  exists (analysis_of (station 0 0 0 0 0 0) [station 100 99 5 10 1 2]), 5.
  split; [apply analyze_trajectory_cons; reflexivity |].
  split; [reflexivity |].
  split.
  { cbn [total_length analysis_of map fold_left station md].
    rewrite Rmax_right by lra. reflexivity. }
  split.
  { cbn [vertical_section analysis_of map fold_left station tvd].
    rewrite Rmax_right by lra. reflexivity. }
  split.
  { unfold end_to_end. rewrite dls_series_of_survey. cbn [map].
    rewrite end_to_end_series. reflexivity. }
  cbn [max_dls avg_dls analysis_of map]. rewrite end_to_end_series.
  split; [reflexivity |].
  split; [| reflexivity].
  cbn. f_equal. lra.
Qed.

(** ** C10: the order of the points *)

Lemma column_max_Permutation (f : TrajectoryPoint -> R)
  (p p' : TrajectoryPoint) (ps ps' : list TrajectoryPoint) :
  Permutation (p :: ps) (p' :: ps') ->
  fold_left Rmax (map f ps) (f p) = fold_left Rmax (map f ps') (f p').
Proof.
  intros Hperm.
  pose proof (Series_max_Permutation _ _ (Permutation_map f Hperm)) as Hmax.
  cbn [map Series_max] in Hmax. injection Hmax as Hmax. exact Hmax.
Qed.

(** C10.  Reordering the points of a non-empty survey changes none of
    [total_length], [total_displacement], [max_inclination], [max_azimuth],
    [vertical_section] and [point_count]. *)
Theorem C10_order_independent_statistics (t t' : WellTrajectory.t) :
  WellTrajectory.points t <> [] ->
  Permutation (WellTrajectory.points t) (WellTrajectory.points t') ->
  exists r r',
    analyze_trajectory t = OK r /\
    analyze_trajectory t' = OK r' /\
    total_length r = total_length r' /\
    total_displacement r = total_displacement r' /\
    max_inclination r = max_inclination r' /\
    max_azimuth r = max_azimuth r' /\
    vertical_section r = vertical_section r' /\
    point_count r = point_count r'.
Proof.
  intros Hne Hperm.
  destruct (WellTrajectory.points t) as [| p ps] eqn:Hpts; [contradiction |].
  destruct (WellTrajectory.points t') as [| p' ps'] eqn:Hpts'.
  { apply Permutation_sym, Permutation_nil in Hperm. discriminate. }
  exists (analysis_of p ps), (analysis_of p' ps').
  split; [apply analyze_trajectory_cons; exact Hpts |].
  split; [apply analyze_trajectory_cons; exact Hpts' |].
  cbn [total_length total_displacement max_inclination max_azimuth
       vertical_section point_count analysis_of].
  rewrite (column_max_Permutation md _ _ _ _ Hperm).
  rewrite (column_max_Permutation inc _ _ _ _ Hperm).
  rewrite (column_max_Permutation azi _ _ _ _ Hperm).
  rewrite (column_max_Permutation tvd _ _ _ _ Hperm).
  rewrite (column_max_Permutation (fun q => or_0 (north q)) _ _ _ _ Hperm).
  rewrite (column_max_Permutation (fun q => or_0 (east q)) _ _ _ _ Hperm).
  repeat (split; [reflexivity |]).
  apply Permutation_length in Hperm. cbn [length] in Hperm. lia.
Qed.

Lemma C10_order_independent_statistics_witness :
  WellTrajectory.points (survey dogleg_back) <> [] /\
  Permutation (WellTrajectory.points (survey dogleg_back))
              (WellTrajectory.points (survey (rev dogleg_back))) /\
  exists r r',
    analyze_trajectory (survey dogleg_back) = OK r /\
    analyze_trajectory (survey (rev dogleg_back)) = OK r' /\
    total_length r = total_length r' /\
    total_displacement r = total_displacement r' /\
    max_inclination r = max_inclination r' /\
    max_azimuth r = max_azimuth r' /\
    vertical_section r = vertical_section r' /\
    point_count r = point_count r'.
Proof.
  split; [discriminate |].
  split; [apply perm_swap |].
  apply (C10_order_independent_statistics (survey dogleg_back)
           (survey (rev dogleg_back))).
  - discriminate.
  - apply perm_swap.
Defined.

(** * Further properties of the handler *)

(** ** When the handler answers *)

(** X1.  The handler fails, with status 500, exactly on the empty list of
    points; on every other list it answers with an analysis. *)
Theorem X1_fails_exactly_on_empty (t : WellTrajectory.t) :
  (WellTrajectory.points t = [] <-> analyze_trajectory t = HTTPException 500) /\
  (WellTrajectory.points t <> [] <-> exists r, analyze_trajectory t = OK r).
Proof.
  destruct (WellTrajectory.points t) as [| p ps] eqn:Hpts.
  - assert (Hfail : analyze_trajectory t = HTTPException 500).
    { unfold analyze_trajectory, analyze. rewrite Hpts. reflexivity. }
    rewrite Hfail. split; split; try easy.
    intros (r & Hr). discriminate Hr.
  - rewrite (analyze_trajectory_cons t p ps Hpts). split; split; try easy.
    intros _. exists (analysis_of p ps). reflexivity.
Qed.

(** ** Column maxima *)

Lemma column_max_attained (f : TrajectoryPoint -> R) (p : TrajectoryPoint)
  (ps : list TrajectoryPoint) :
  exists q, In q (p :: ps) /\
            fold_left Rmax (map f ps) (f p) = f q /\
            forall q', In q' (p :: ps) -> f q' <= f q.
Proof.
  destruct (fold_Rmax_greatest (map f ps) (f p)) as [Hin Hub].
  change (f p :: map f ps) with (map f (p :: ps)) in Hin, Hub.
  apply in_map_iff in Hin. destruct Hin as (q & Hq & Hin).
  exists q. split; [exact Hin |]. split; [symmetry; exact Hq |].
  intros q' Hq'. rewrite Hq. apply Hub. apply in_map. exact Hq'.
Qed.

(** X2.  On a non-empty survey [total_length], [max_inclination],
    [max_azimuth] and [vertical_section] are each the value at some point
    of the survey, and no point has a greater value. *)
Theorem X2_column_maxima_attained (t : WellTrajectory.t) :
  WellTrajectory.points t <> [] ->
  exists r,
    analyze_trajectory t = OK r /\
    (exists p, In p (WellTrajectory.points t) /\ total_length r = Val (md p) /\
               forall q, In q (WellTrajectory.points t) -> md q <= md p) /\
    (exists p, In p (WellTrajectory.points t) /\ max_inclination r = Val (inc p) /\
               forall q, In q (WellTrajectory.points t) -> inc q <= inc p) /\
    (exists p, In p (WellTrajectory.points t) /\ max_azimuth r = Val (azi p) /\
               forall q, In q (WellTrajectory.points t) -> azi q <= azi p) /\
    (exists p, In p (WellTrajectory.points t) /\ vertical_section r = Val (tvd p) /\
               forall q, In q (WellTrajectory.points t) -> tvd q <= tvd p).
Proof.
  intros Hne. destruct (WellTrajectory.points t) as [| p ps] eqn:Hpts; [easy |].
  exists (analysis_of p ps).
  split; [apply analyze_trajectory_cons; exact Hpts |].
  cbn [total_length max_inclination max_azimuth vertical_section analysis_of].
  repeat split.
  - destruct (column_max_attained md p ps) as (q & Hin & Heq & Hub).
    exists q. rewrite Heq. auto.
  - destruct (column_max_attained inc p ps) as (q & Hin & Heq & Hub).
    exists q. rewrite Heq. auto.
  - destruct (column_max_attained azi p ps) as (q & Hin & Heq & Hub).
    exists q. rewrite Heq. auto.
  - destruct (column_max_attained tvd p ps) as (q & Hin & Heq & Hub).
    exists q. rewrite Heq. auto.
Qed.

Lemma X2_column_maxima_attained_witness :
  exists r,
    analyze_trajectory (survey dogleg_back) = OK r /\
    (exists p, In p dogleg_back /\ total_length r = Val (md p) /\
               forall q, In q dogleg_back -> md q <= md p) /\
    (exists p, In p dogleg_back /\ max_inclination r = Val (inc p) /\
               forall q, In q dogleg_back -> inc q <= inc p) /\
    (exists p, In p dogleg_back /\ max_azimuth r = Val (azi p) /\
               forall q, In q dogleg_back -> azi q <= azi p) /\
    (exists p, In p dogleg_back /\ vertical_section r = Val (tvd p) /\
               forall q, In q dogleg_back -> tvd q <= tvd p).
Proof.
  apply (X2_column_maxima_attained (survey dogleg_back)). discriminate.
Defined.

Lemma sorted_column_max (ps : list TrajectoryPoint) (p : TrajectoryPoint) :
  md_nondecreasing (p :: ps) ->
  fold_left Rmax (map md ps) (md p) = md (last ps p).
Proof.
  revert p. induction ps as [| q ps IH]; intros p Hsorted; [reflexivity |].
  inversion Hsorted as [| ? ? Hrest Hhd]; subst.
  inversion Hhd as [| ? ? Hpq]; subst.
  cbn [map fold_left]. rewrite (Rmax_right _ _ Hpq), (IH q Hrest).
  destruct ps as [| z ps]; [reflexivity |].
  change (last (q :: z :: ps) p) with (last (z :: ps) p).
  f_equal. apply last_default.
Qed.

(** X3.  When measured depth never decreases along the survey,
    [total_length] is the measured depth of the last point as given. *)
Theorem X3_total_length_of_sorted_survey (t : WellTrajectory.t)
  (pre : list TrajectoryPoint) (final : TrajectoryPoint) :
  WellTrajectory.points t = pre ++ [final] ->
  md_nondecreasing (WellTrajectory.points t) ->
  exists r, analyze_trajectory t = OK r /\ total_length r = Val (md final).
Proof.
  intros Hpts Hsorted.
  destruct (WellTrajectory.points t) as [| p ps] eqn:Hcons.
  { destruct pre; discriminate. }
  exists (analysis_of p ps).
  split; [apply analyze_trajectory_cons; exact Hcons |].
  cbn [total_length analysis_of].
  rewrite (sorted_column_max ps p Hsorted), (last_of_snoc _ pre final p ps Hpts).
  reflexivity.
Qed.

Lemma X3_total_length_of_sorted_survey_witness :
  exists r,
    analyze_trajectory (survey end_to_end) = OK r /\
    total_length r = Val (md (station 100 99 5 10 1 2)).
Proof.
  apply (X3_total_length_of_sorted_survey (survey end_to_end)
           [station 0 0 0 0 0 0] (station 100 99 5 10 1 2)).
  - reflexivity.
  - unfold md_nondecreasing. cbn. repeat constructor. cbn. lra.
Defined.

(** ** The closure fields *)

(** X4.  The closure fields are those of the last point as given:
    [closure_distance] is its horizontal distance from the origin, and both
    closure fields equal the ones answered for that point alone. *)
Theorem X4_closure_from_last_point (t : WellTrajectory.t)
  (pre : list TrajectoryPoint) (final : TrajectoryPoint) :
  WellTrajectory.points t = pre ++ [final] ->
  exists r r1,
    analyze_trajectory t = OK r /\
    analyze_trajectory (survey [final]) = OK r1 /\
    closure_distance r = Val (horizontal_norm final) /\
    closure_distance r = closure_distance r1 /\
    closure_azimuth r = closure_azimuth r1.
Proof.
  intros Hpts.
  destruct (WellTrajectory.points t) as [| p ps] eqn:Hcons.
  { destruct pre; discriminate. }
  pose proof (last_of_snoc _ pre final p ps Hpts) as Hlast.
  exists (analysis_of p ps), (analysis_of final []).
  split; [apply analyze_trajectory_cons; exact Hcons |].
  split; [apply analyze_trajectory_cons; reflexivity |].
  cbn [closure_distance closure_azimuth analysis_of]. rewrite Hlast.
  cbn [last]. rewrite np_sqrt_sum_squares. repeat split; reflexivity.
Qed.

Lemma X4_closure_from_last_point_witness :
  exists r r1,
    analyze_trajectory (survey dogleg_back) = OK r /\
    analyze_trajectory (survey [station 100 90 10 90 0 4]) = OK r1 /\
    closure_distance r = Val (horizontal_norm (station 100 90 10 90 0 4)) /\
    closure_distance r = closure_distance r1 /\
    closure_azimuth r = closure_azimuth r1.
Proof.
  apply (X4_closure_from_last_point (survey dogleg_back)
           [station 0 0 0 0 3 0] (station 100 90 10 90 0 4)).
  reflexivity.
Defined.

Lemma norm_monotone (a b c d : R) :
  0 <= a <= c -> 0 <= b <= d ->
  0 <= R_sqrt.sqrt (a ^ 2 + b ^ 2) <= R_sqrt.sqrt (c ^ 2 + d ^ 2).
Proof.
  intros Ha Hb. split; [apply sqrt_pos |].
  apply sqrt_le_1_alt. nra.
Qed.

Lemma last_in (A : Type) (xs : list A) (x : A) : In (last xs x) (x :: xs).
Proof.
  revert x. induction xs as [| y xs IH]; intros x; [left; reflexivity |].
  right. destruct xs as [| z xs]; [left; reflexivity |].
  change (last (y :: z :: xs) x) with (last (z :: xs) x).
  rewrite (last_default _ xs z x y). apply (IH y).
Qed.

(** X5.  When no point of the survey has a negative north or east offset,
    [closure_distance] is at most [total_displacement]. *)
Theorem X5_closure_within_displacement (t : WellTrajectory.t) :
  WellTrajectory.points t <> [] ->
  (forall p, In p (WellTrajectory.points t) ->
     0 <= or_0 (north p) /\ 0 <= or_0 (east p)) ->
  exists r c d,
    analyze_trajectory t = OK r /\
    closure_distance r = Val c /\
    total_displacement r = Val d /\
    0 <= c <= d.
Proof.
  intros Hne Hpos.
  destruct (WellTrajectory.points t) as [| p ps] eqn:Hpts; [easy |].
  exists (analysis_of p ps).
  cbn [closure_distance total_displacement analysis_of].
  rewrite !np_sqrt_sum_squares.
  eexists. eexists.
  split; [apply analyze_trajectory_cons; exact Hpts |].
  split; [reflexivity |]. split; [reflexivity |].
  pose proof (last_in _ ps p) as Hlast.
  destruct (Hpos _ Hlast) as [Hn He].
  destruct (fold_Rmax_greatest (map (fun q => or_0 (north q)) ps) (or_0 (north p)))
    as [_ HN].
  destruct (fold_Rmax_greatest (map (fun q => or_0 (east q)) ps) (or_0 (east p)))
    as [_ HE].
  apply norm_monotone; (split; [assumption |]).
  - apply HN.
    change (In ((fun q => or_0 (north q)) (last ps p))
               (map (fun q => or_0 (north q)) (p :: ps))).
    apply in_map. exact Hlast.
  - apply HE.
    change (In ((fun q => or_0 (east q)) (last ps p))
               (map (fun q => or_0 (east q)) (p :: ps))).
    apply in_map. exact Hlast.
Qed.

Lemma X5_closure_within_displacement_witness :
  exists r c d,
    analyze_trajectory (survey dogleg_back) = OK r /\
    closure_distance r = Val c /\
    total_displacement r = Val d /\
    0 <= c <= d.
Proof.
  apply (X5_closure_within_displacement (survey dogleg_back)).
  - discriminate.
  - intros p [<- | [<- | []]]; cbn; lra.
Defined.

(** ** The dogleg angle *)

Lemma scaled_angle_range (a : R) :
  0 <= a <= PI -> 0 <= a * 180 / np.pi <= 180.
Proof.
  intros [Hlo Hhi]. pose proof PI_RGT_0 as Hpi. unfold np.pi.
  replace (a * 180 / PI) with (180 * (a / PI)) by (unfold Rdiv; ring).
  assert (Hq : 0 <= a / PI <= 1).
  { split.
    - apply Rmult_le_reg_r with PI; [exact Hpi |].
      unfold Rdiv. rewrite Rmult_assoc, Rinv_l by lra. lra.
    - apply Rmult_le_reg_r with PI; [exact Hpi |].
      unfold Rdiv. rewrite Rmult_assoc, Rinv_l by lra. lra. }
  lra.
Qed.

Lemma dogleg_range (prev curr : Row) (x : R) :
  dogleg prev curr = Val x -> 0 <= x <= 180.
Proof.
  unfold dogleg, np.arccos.
  destruct (Rle_dec (-1) (arccos_argument prev curr)) as [Hlo | Hlo];
    [| discriminate].
  destruct (Rle_dec (arccos_argument prev curr) 1) as [Hhi | Hhi];
    [| discriminate].
  cbn [lift1]. intros [= <-].
  apply scaled_angle_range, acos_bound.
Qed.

(** X6.  A dogleg angle that is a number lies between 0 and 180 degrees. *)
Theorem X6_dogleg_between_0_and_180 (prev curr : Row) (x : R) :
  dogleg prev curr = Val x -> 0 <= x <= 180.
Proof. exact (dogleg_range prev curr x). Qed.

Lemma X6_dogleg_between_0_and_180_witness :
  dogleg (to_dict (station 0 0 0 0 0 0)) (to_dict (station 100 99 5 10 1 2))
    = Val 5 /\
  0 <= 5 <= 180.
Proof.
  split; [exact end_to_end_dogleg |].
  apply (X6_dogleg_between_0_and_180 (to_dict (station 0 0 0 0 0 0))
           (to_dict (station 100 99 5 10 1 2)) 5).
  exact end_to_end_dogleg.
Defined.

(** ** The statistics of a series of numbers *)

Lemma dls_entry_nonneg (prev curr : Row) (x : R) :
  In (Val x) (dls_entry prev curr) -> 0 <= x.
Proof.
  unfold dls_entry. cbv zeta.
  destruct (Rgt_dec (row_md curr - row_md prev) 0) as [Hmd | Hmd]; [| intros []].
  intros [Heq | []].
  destruct (dogleg prev curr) as [d |] eqn:Hd; [| discriminate].
  cbn [lift1] in Heq. injection Heq as <-.
  pose proof (dogleg_range prev curr d Hd) as [Hlo _].
  pose proof (Rinv_0_lt_compat _ Hmd) as Hinv.
  unfold Rdiv. nra.
Qed.

Lemma dls_pairs_nonneg (rs : list Row) (r : Row) (x : R) :
  In (Val x) (dls_pairs r rs) -> 0 <= x.
Proof.
  revert r. induction rs as [| c rs IH]; intros r; [intros [] |].
  cbn [dls_pairs]. intros Hin. apply in_app_or in Hin.
  destruct Hin as [Hin | Hin].
  - exact (dls_entry_nonneg r c x Hin).
  - exact (IH c Hin).
Qed.

Lemma Rsum_bounds (xs : list R) (m : R) :
  (forall x, In x xs -> 0 <= x <= m) ->
  0 <= Rsum xs <= INR (length xs) * m.
Proof.
  induction xs as [| x xs IH]; intros Hb.
  - cbn. lra.
  - assert (Hx : 0 <= x <= m) by (apply Hb; left; reflexivity).
    assert (Hxs : 0 <= Rsum xs <= INR (length xs) * m)
      by (apply IH; intros y Hy; apply Hb; right; exact Hy).
    change (length (x :: xs)) with (S (length xs)). rewrite S_INR.
    change (Rsum (x :: xs)) with (x + Rsum xs). lra.
Qed.

Lemma mean_bounds (xs : list R) (m : R) :
  xs <> [] ->
  (forall x, In x xs -> 0 <= x <= m) ->
  0 <= Rsum xs / INR (length xs) <= m.
Proof.
  intros Hne Hb. pose proof (Rsum_bounds xs m Hb) as [Hlo Hhi].
  assert (Hn : 0 < INR (length xs)).
  { apply lt_0_INR. destruct xs; [contradiction | cbn; lia]. }
  pose proof (Rinv_0_lt_compat _ Hn) as Hinv.
  split.
  - unfold Rdiv. nra.
  - apply Rmult_le_reg_r with (INR (length xs)); [exact Hn |].
    unfold Rdiv. rewrite Rmult_assoc, Rinv_l by lra. lra.
Qed.

(** X7.  When every entry of the series is a number, [max_dls] and
    [avg_dls] are numbers, both 0 when the series is empty, and over the
    reals (exact arithmetic) [0 <= avg_dls <= max_dls]. *)
Theorem X7_average_between_0_and_maximum (t : WellTrajectory.t) (xs : list R) :
  WellTrajectory.points t <> [] ->
  dls_series (map to_dict (WellTrajectory.points t)) = Return (map Val xs) ->
  exists r m a,
    analyze_trajectory t = OK r /\
    max_dls r = Val m /\
    avg_dls r = Val a /\
    0 <= a <= m /\
    (xs = [] -> m = 0 /\ a = 0).
Proof.
  intros Hne. rewrite dls_series_of_survey.
  destruct (WellTrajectory.points t) as [| p ps] eqn:Hpts; [easy |].
  intros [= Hs]. exists (analysis_of p ps).
  cbn [max_dls avg_dls analysis_of]. rewrite Hs.
  assert (Hpos : forall x, In x xs -> 0 <= x).
  { intros x Hx. apply (dls_pairs_nonneg (map to_dict ps) (to_dict p)).
    rewrite Hs. apply in_map. exact Hx. }
  destruct xs as [| x0 xs0] eqn:Hxs.
  - exists 0, 0. split; [apply analyze_trajectory_cons; exact Hpts |].
    cbn. repeat split; try reflexivity; lra.
  - rewrite <- Hxs in *.
    assert (Hx : xs <> []) by (rewrite Hxs; discriminate).
    destruct (dls_summary_numbers xs Hx) as (m & [Hin Hub] & Hsum).
    exists m, (Rsum xs / INR (length xs)).
    split; [apply analyze_trajectory_cons; exact Hpts |].
    rewrite Hsum. split; [reflexivity |]. split; [reflexivity |].
    split; [apply mean_bounds; [exact Hx |]; intros x Hin'; auto |].
    intros Hnil. contradiction.
Qed.

(** ** NaN in the statistics *)

Lemma builtin_max_of_nan (vs : list float64) : builtin_max NaN vs = NaN.
Proof.
  unfold builtin_max. induction vs as [| item vs IH]; [reflexivity |].
  cbn [fold_left]. destruct item; exact IH.
Qed.

Lemma builtin_max_of_number (vs : list float64) (x : R) :
  exists y, builtin_max (Val x) vs = Val y.
Proof.
  unfold builtin_max. revert x.
  induction vs as [| item vs IH]; intros x; [exists x; reflexivity |].
  cbn [fold_left]. destruct item as [a |]; cbn [float_gt].
  - destruct (Rgt_dec a x); apply IH.
  - apply IH.
Qed.

Lemma sum_nan_iff (l : list float64) (acc : float64) :
  fold_left (lift2 Rplus) l acc = NaN <-> acc = NaN \/ In NaN l.
Proof.
  revert acc. induction l as [| v l IH]; intros acc; cbn [fold_left In].
  - tauto.
  - rewrite IH. destruct acc as [a |], v as [b |]; cbn [lift2];
      intuition congruence.
Qed.

Lemma mean_nan_iff (l : list float64) :
  l <> [] -> (np.mean l = NaN <-> In NaN l).
Proof.
  intros Hne. destruct l as [| v l]; [contradiction |].
  unfold np.mean.
  destruct (fold_left (lift2 Rplus) (v :: l) (Val 0)) as [s |] eqn:Hsum;
    cbn [lift2].
  - split; [discriminate |]. intros Hin.
    assert (Hnan : fold_left (lift2 Rplus) (v :: l) (Val 0) = NaN)
      by (apply sum_nan_iff; right; exact Hin).
    congruence.
  - split; [| reflexivity]. intros _.
    apply sum_nan_iff in Hsum. destruct Hsum as [Hsum | Hsum];
      [discriminate | exact Hsum].
Qed.

Lemma hairpin_series :
  dls_pairs (to_dict (station 0 0 90 0 0 0)) [to_dict (station 100 0 90 180 100 0)]
  = [NaN].
Proof.
  assert (Hnan : dogleg (to_dict (station 0 0 90 0 0 0))
                        (to_dict (station 100 0 90 180 100 0)) = NaN).
  { unfold dogleg. rewrite lift1_nan_iff. apply arccos_nan_iff.
    rewrite hairpin_argument. lra. }
  cbn [dls_pairs]. unfold dls_entry. rewrite Hnan.
  cbn [to_dict station row_md md lift1 app]. cbv zeta.
  destruct (Rgt_dec (100 - 0) 0) as [_ | Hle]; [reflexivity | lra].
Qed.

(** X8.  On a non-empty series [max_dls] is NaN exactly when the first
    entry is NaN (a NaN met later is passed over by Python's [max]), while
    [avg_dls] is NaN exactly when some entry is NaN. *)
Theorem X8_nan_in_statistics (t : WellTrajectory.t) (v : float64)
  (vs : list float64) :
  WellTrajectory.points t <> [] ->
  dls_series (map to_dict (WellTrajectory.points t)) = Return (v :: vs) ->
  exists r,
    analyze_trajectory t = OK r /\
    (max_dls r = NaN <-> v = NaN) /\
    (avg_dls r = NaN <-> In NaN (v :: vs)).
Proof.
  intros Hne. rewrite dls_series_of_survey.
  destruct (WellTrajectory.points t) as [| p ps] eqn:Hpts; [easy |].
  intros [= Hs]. exists (analysis_of p ps).
  split; [apply analyze_trajectory_cons; exact Hpts |].
  cbn [max_dls avg_dls analysis_of]. rewrite Hs. cbn [dls_summary fst snd].
  split.
  - destruct v as [x |].
    + destruct (builtin_max_of_number vs x) as (y & ->). split; discriminate.
    + rewrite builtin_max_of_nan. split; reflexivity.
  - apply mean_nan_iff. discriminate.
Qed.

Lemma X8_nan_in_statistics_witness :
  exists r,
    analyze_trajectory (survey hairpin) = OK r /\
    (max_dls r = NaN <-> NaN = NaN) /\
    (avg_dls r = NaN <-> In NaN [NaN]).
Proof.
  apply (X8_nan_in_statistics (survey hairpin) NaN []).
  - discriminate.
  - rewrite dls_series_of_survey. cbn [survey WellTrajectory.points hairpin map].
    rewrite hairpin_series. reflexivity.
Defined.

(** ** The azimuth wrap-around and the dogleg angle *)

Lemma radians_minus_turn (d : R) : np.radians (d - 360) = np.radians d - 2 * PI.
Proof. unfold np.radians. field. Qed.

Lemma radians_plus_turn (d : R) : np.radians (d + 360) = np.radians d + 2 * PI.
Proof. unfold np.radians. field. Qed.

Lemma radians_opp (d : R) : np.radians (- d) = - np.radians d.
Proof. unfold np.radians. ring. Qed.

Lemma cos_minus_turn (x : R) : cos (x - 2 * PI) = cos x.
Proof. rewrite cos_minus, cos_2PI, sin_2PI. ring. Qed.

Lemma cos_plus_turn (x : R) : cos (x + 2 * PI) = cos x.
Proof. rewrite cos_plus, cos_2PI, sin_2PI. ring. Qed.

Lemma cos_azimuth_delta (prev curr : Row) :
  cos (np.radians (azimuth_delta prev curr)) =
  cos (np.radians (row_azi curr - row_azi prev)).
Proof.
  unfold azimuth_delta. cbv zeta.
  destruct (Rgt_dec (row_azi curr - row_azi prev) 180) as [Hhi | Hhi].
  - destruct (Rlt_dec (row_azi curr - row_azi prev - 360) (-180)); [lra |].
    rewrite radians_minus_turn. apply cos_minus_turn.
  - destruct (Rlt_dec (row_azi curr - row_azi prev) (-180)); [| reflexivity].
    rewrite radians_plus_turn. apply cos_plus_turn.
Qed.

Lemma arccos_argument_unwrapped (prev curr : Row) :
  arccos_argument prev curr =
  cos (np.radians (row_inc curr - row_inc prev)) +
  sin (np.radians (row_inc prev)) * sin (np.radians (row_inc curr)) *
  (1 - cos (np.radians (row_azi curr - row_azi prev))).
Proof.
  unfold arccos_argument. cbv zeta. rewrite cos_azimuth_delta. reflexivity.
Qed.

(** X9.  The wrap-around of the azimuth difference has no effect on the
    dogleg angle: the argument of the inverse cosine, and so the angle, are
    what the unwrapped difference [azi curr - azi prev] gives. *)
Theorem X9_wrap_around_is_neutral (prev curr : Row) :
  arccos_argument prev curr =
    cos (np.radians (row_inc curr - row_inc prev)) +
    sin (np.radians (row_inc prev)) * sin (np.radians (row_inc curr)) *
    (1 - cos (np.radians (row_azi curr - row_azi prev))) /\
  dogleg prev curr =
    spec_dogleg_deg (row_inc prev) (row_inc curr) (row_azi curr - row_azi prev).
Proof.
  split; [apply arccos_argument_unwrapped |].
  unfold dogleg, spec_dogleg_deg. cbv zeta.
  rewrite arccos_argument_unwrapped.
  apply lift1_ext. intros x. unfold np.degrees, np.pi, Rdiv. ring.
Qed.

Lemma arccos_argument_sym (prev curr : Row) :
  arccos_argument prev curr = arccos_argument curr prev.
Proof.
  rewrite !arccos_argument_unwrapped.
  replace (row_inc prev - row_inc curr) with (- (row_inc curr - row_inc prev))
    by ring.
  replace (row_azi prev - row_azi curr) with (- (row_azi curr - row_azi prev))
    by ring.
  rewrite !radians_opp, !cos_neg. ring.
Qed.

(** X10.  The dogleg angle of an interval does not depend on its direction:
    swapping the two stations gives the same angle. *)
Theorem X10_dogleg_symmetric (prev curr : Row) :
  dogleg prev curr = dogleg curr prev.
Proof.
  unfold dogleg. rewrite (arccos_argument_sym prev curr). reflexivity.
Qed.

Lemma degrees_of_radians (d : R) : np.radians d * 180 / np.pi = d.
Proof.
  pose proof PI_RGT_0. unfold np.radians, np.pi. field. lra.
Qed.

Lemma radians_range (d : R) : 0 <= d <= 180 -> 0 <= np.radians d <= PI.
Proof.
  intros [Hlo Hhi]. pose proof PI_RGT_0 as Hpi. unfold np.radians.
  split; [nra |].
  replace PI with (180 * (PI / 180)) at 2 by field.
  apply Rmult_le_compat_r; lra.
Qed.

Lemma cos_radians_abs (d : R) : cos (np.radians d) = cos (np.radians (Rabs d)).
Proof.
  unfold Rabs. destruct (Rcase_abs d); [| reflexivity].
  rewrite radians_opp, cos_neg. reflexivity.
Qed.

Lemma dogleg_of_plain_turn (prev curr : Row) :
  arccos_argument prev curr = cos (np.radians (row_inc curr - row_inc prev)) ->
  Rabs (row_inc curr - row_inc prev) <= 180 ->
  dogleg prev curr = Val (Rabs (row_inc curr - row_inc prev)).
Proof.
  intros Harg Hturn. unfold dogleg. rewrite Harg, cos_radians_abs.
  rewrite arccos_in_domain
    by (pose proof (COS_bound (np.radians (Rabs (row_inc curr - row_inc prev))));
        lra).
  cbn [lift1]. f_equal.
  rewrite acos_cos
    by (apply radians_range; split; [apply Rabs_pos | exact Hturn]).
  apply degrees_of_radians.
Qed.

(** X11.  When one of the two stations is vertical (inclination 0), or both
    have the same azimuth, the dogleg angle is the absolute inclination
    change, provided that change is at most 180 degrees. *)
Theorem X11_dogleg_is_inclination_change (prev curr : Row) :
  row_inc prev = 0 \/ row_inc curr = 0 \/ row_azi curr = row_azi prev ->
  Rabs (row_inc curr - row_inc prev) <= 180 ->
  dogleg prev curr = Val (Rabs (row_inc curr - row_inc prev)).
Proof.
  intros Hcase Hturn. apply dogleg_of_plain_turn; [| exact Hturn].
  rewrite arccos_argument_unwrapped.
  destruct Hcase as [H | [H | H]]; rewrite H.
  - rewrite radians_0, sin_0. ring.
  - rewrite radians_0, sin_0. ring.
  - replace (row_azi prev - row_azi prev) with 0 by ring.
    rewrite radians_0, cos_0. ring.
Qed.

Lemma X11_dogleg_is_inclination_change_witness :
  dogleg (to_dict (station 0 0 0 0 0 0)) (to_dict (station 100 99 5 10 1 2))
  = Val (Rabs (5 - 0)).
Proof.
  apply (X11_dogleg_is_inclination_change (to_dict (station 0 0 0 0 0 0))
           (to_dict (station 100 99 5 10 1 2))).
  - left. reflexivity.
  - cbn. replace (5 - 0) with 5 by lra. rewrite Rabs_right; lra.
Defined.

(** ** Growing a survey *)

Lemma dls_pairs_snoc (rs : list Row) (r b : Row) :
  dls_pairs r (rs ++ [b]) = dls_pairs r rs ++ dls_entry (last rs r) b.
Proof.
  revert r. induction rs as [| c rs IH]; intros r.
  - cbn [app dls_pairs last]. rewrite app_nil_r. reflexivity.
  - cbn [app dls_pairs]. rewrite (IH c), app_assoc.
    destruct rs as [| z rs]; [reflexivity |].
    change (last (c :: z :: rs) r) with (last (z :: rs) r).
    rewrite (last_default _ rs z c r). reflexivity.
Qed.

(** X12.  Appending a station [b] after the last station [a] of a survey
    leaves every entry of the series in place and adds the entry of the
    interval from [a] to [b]: one entry when measured depth increases from
    [a] to [b], none otherwise. *)
Theorem X12_appending_a_station (pre : list TrajectoryPoint)
  (a b : TrajectoryPoint) :
  exists s,
    dls_series (map to_dict (pre ++ [a])) = Return s /\
    dls_series (map to_dict (pre ++ [a; b])) =
      Return (s ++ dls_entry (to_dict a) (to_dict b)) /\
    (md b - md a > 0 -> exists e, dls_entry (to_dict a) (to_dict b) = [e]) /\
    (md b - md a <= 0 -> dls_entry (to_dict a) (to_dict b) = []).
Proof.
  rewrite !dls_series_of_survey.
  replace (pre ++ [a; b]) with ((pre ++ [a]) ++ [b])
    by (rewrite <- app_assoc; reflexivity).
  destruct (pre ++ [a]) as [| p ps] eqn:Hcons.
  { destruct pre; discriminate. }
  pose proof (last_of_snoc _ pre a p ps (eq_sym Hcons)) as Hlast.
  exists (dls_pairs (to_dict p) (map to_dict ps)).
  split; [reflexivity |].
  split.
  { cbn [app]. rewrite map_app. cbn [map]. rewrite dls_pairs_snoc.
    rewrite last_of_map, Hlast. reflexivity. }
  unfold dls_entry. cbn [to_dict row_md]. cbv zeta.
  split; intros Hmd; destruct (Rgt_dec (md b - md a) 0); try lra.
  - eexists. reflexivity.
  - reflexivity.
Qed.

(** ** What the handler reads *)

Lemma to_dict_fill_offsets (pts : list TrajectoryPoint) :
  map to_dict (map fill_offsets pts) = map to_dict pts.
Proof.
  rewrite map_map. apply map_ext. intros p. reflexivity.
Qed.

(** X13.  The answer depends on the points only, and an absent north or
    east offset is read as 0: a request answers as the request made of its
    points alone, with every absent offset written as 0. *)
Theorem X13_absent_offsets_read_as_zero (t : WellTrajectory.t) :
  analyze_trajectory t =
  analyze_trajectory (survey (map fill_offsets (WellTrajectory.points t))).
Proof.
  unfold analyze_trajectory, analyze.
  cbn [survey WellTrajectory.points]. rewrite to_dict_fill_offsets.
  reflexivity.
Qed.

(** * The generate handler *)

Lemma point_of_row_required (df : WellFrame) (row : WellRow) :
  has_required_columns df -> point_of_row df row = Some (point_of df row).
Proof.
  intros (Hmd & Htvd & Hinc & Hazi). unfold point_of_row, row_getitem.
  rewrite Hmd, Htvd, Hinc, Hazi. reflexivity.
Qed.

Lemma point_of_row_missing (df : WellFrame) (row : WellRow) :
  ~ has_required_columns df -> point_of_row df row = None.
Proof.
  intros Hmissing. unfold point_of_row, row_getitem.
  destruct (frame_has df "md") eqn:Hmd; [| reflexivity].
  destruct (frame_has df "tvd") eqn:Htvd; [| reflexivity].
  destruct (frame_has df "inc") eqn:Hinc; [| reflexivity].
  destruct (frame_has df "azi") eqn:Hazi; [| reflexivity].
  exfalso. apply Hmissing. repeat split; assumption.
Qed.

Lemma points_of_rows_required (df : WellFrame) (rows : list WellRow) :
  has_required_columns df ->
  points_of_rows df rows = Some (map (point_of df) rows).
Proof.
  intros Hreq. induction rows as [| row rows IH]; [reflexivity |].
  cbn [points_of_rows map]. rewrite (point_of_row_required df row Hreq), IH.
  reflexivity.
Qed.

Lemma generate_of_rows
  (wp_get : R -> list (string * R) -> list (string * param) -> option WellFrame)
  (request_hash : string) (request : TrajectoryRequest.t)
  (df : WellFrame) (r : WellRow) (rs : list WellRow) :
  library_frame wp_get request = Some df ->
  has_required_columns df ->
  frame_rows df = r :: rs ->
  generate wp_get request_hash request =
  Some (generated_of request_hash request df r rs).
Proof.
  intros Hlib Hreq Hrows. unfold library_frame in Hlib.
  unfold generate. cbv zeta. rewrite Hlib.
  rewrite (points_of_rows_required df _ Hreq), Hrows. cbn [map].
  rewrite last_of_map. cbn [north east point_of].
  unfold sq. cbn [lift1 lift2]. rewrite np_sqrt_sum_squares. cbn [number].
  replace (map (fun q => Val (inc q)) (map (point_of df) rs))
    with (map Val (map w_inc rs))
    by (rewrite !map_map; reflexivity).
  cbn [inc point_of]. rewrite builtin_max_numbers. cbn [number].
  unfold generated_of. cbv zeta. cbn [map Series_max tvd md point_of].
  destruct (frame_has df "dls"); reflexivity.
Qed.

Lemma generate_of_no_rows
  (wp_get : R -> list (string * R) -> list (string * param) -> option WellFrame)
  (request_hash : string) (request : TrajectoryRequest.t) (df : WellFrame) :
  library_frame wp_get request = Some df ->
  frame_rows df = [] ->
  exists t,
    generate wp_get request_hash request = Some t /\
    WellTrajectory.points t = [] /\
    WellTrajectory.end_point t = [("north", 0); ("east", 0); ("tvd", 0)]%string /\
    WellTrajectory.total_depth t = 0 /\
    WellTrajectory.total_displacement t = 0 /\
    WellTrajectory.max_inclination t = 0 /\
    WellTrajectory.max_dls t = 0.
Proof.
  intros Hlib Hrows. unfold library_frame in Hlib.
  unfold generate. cbv zeta. rewrite Hlib, Hrows. cbn [points_of_rows].
  eexists. split; [reflexivity |]. repeat split.
Qed.

(** X14.  The generate handler fails, with status 500, when the library
    raises, and when the frame it builds has rows but lacks one of the
    columns [md], [tvd], [inc], [azi]; it answers with a trajectory when
    the frame has no row or has those four columns. *)
Theorem X14_generate_failures
  (wp_get : R -> list (string * R) -> list (string * param) -> option WellFrame)
  (request_hash : string) (request : TrajectoryRequest.t) :
  (library_frame wp_get request = None ->
     generate_trajectory wp_get request_hash request = GenerateFailed 500) /\
  (forall df, library_frame wp_get request = Some df ->
     frame_rows df <> [] -> ~ has_required_columns df ->
     generate_trajectory wp_get request_hash request = GenerateFailed 500) /\
  (forall df, library_frame wp_get request = Some df ->
     frame_rows df = [] \/ has_required_columns df ->
     exists t, generate_trajectory wp_get request_hash request = Generated t).
Proof.
  unfold generate_trajectory. split; [| split].
  - intros Hlib. unfold library_frame in Hlib. unfold generate. cbv zeta.
    rewrite Hlib. reflexivity.
  - intros df Hlib Hrows Hmissing. unfold library_frame in Hlib.
    unfold generate. cbv zeta. rewrite Hlib.
    destruct (frame_rows df) as [| r rs]; [contradiction |].
    cbn [points_of_rows]. rewrite (point_of_row_missing df r Hmissing).
    reflexivity.
  - intros df Hlib [Hrows | Hreq].
    + destruct (generate_of_no_rows wp_get request_hash request df Hlib Hrows)
        as (t & -> & _).
      exists t. reflexivity.
    + destruct (frame_rows df) as [| r rs] eqn:Hrows.
      * destruct (generate_of_no_rows wp_get request_hash request df Hlib Hrows)
          as (t & -> & _).
        exists t. reflexivity.
      * rewrite (generate_of_rows wp_get request_hash request df r rs Hlib Hreq Hrows).
        eexists. reflexivity.
Qed.

(** X15.  When the library builds a frame with no row, the generate handler
    still answers: a trajectory with no point, every statistic and every
    end-point coordinate 0.  The analyze handler rejects that trajectory
    with status 500. *)
Theorem X15_generate_from_empty_frame
  (wp_get : R -> list (string * R) -> list (string * param) -> option WellFrame)
  (request_hash : string) (request : TrajectoryRequest.t) (df : WellFrame) :
  library_frame wp_get request = Some df ->
  frame_rows df = [] ->
  exists t,
    generate_trajectory wp_get request_hash request = Generated t /\
    WellTrajectory.points t = [] /\
    WellTrajectory.end_point t = [("north", 0); ("east", 0); ("tvd", 0)]%string /\
    WellTrajectory.total_depth t = 0 /\
    WellTrajectory.total_displacement t = 0 /\
    WellTrajectory.max_inclination t = 0 /\
    WellTrajectory.max_dls t = 0 /\
    analyze_trajectory t = HTTPException 500.
Proof.
  intros Hlib Hrows.
  destruct (generate_of_no_rows wp_get request_hash request df Hlib Hrows)
    as (t & Hgen & Hpts & Hend & Hdepth & Hdisp & Hinc & Hdls).
  exists t. unfold generate_trajectory. rewrite Hgen.
  repeat (split; [assumption || reflexivity |]).
  unfold analyze_trajectory, analyze. rewrite Hpts. reflexivity.
Qed.

Lemma X15_generate_from_empty_frame_witness :
  exists t,
    generate_trajectory (always empty_frame) "0" j_request = Generated t /\
    WellTrajectory.points t = [] /\
    WellTrajectory.end_point t = [("north", 0); ("east", 0); ("tvd", 0)]%string /\
    WellTrajectory.total_depth t = 0 /\
    WellTrajectory.total_displacement t = 0 /\
    WellTrajectory.max_inclination t = 0 /\
    WellTrajectory.max_dls t = 0 /\
    analyze_trajectory t = HTTPException 500.
Proof.
  apply (X15_generate_from_empty_frame (always empty_frame) "0" j_request
           empty_frame); reflexivity.
Defined.

(** X16.  From a frame with the four required columns and at least one row
    the generate handler answers a trajectory with one point per row, in
    order; [total_depth] is the measured depth of the last row (not the
    greatest one), [total_displacement] the horizontal distance of the last
    row from the origin (a missing north or east column counting as 0),
    [max_inclination] the greatest inclination of the frame, and [max_dls]
    the greatest value of the [dls] column, or 0 when the frame has no such
    column. *)
Theorem X16_generate_summary
  (wp_get : R -> list (string * R) -> list (string * param) -> option WellFrame)
  (request_hash : string) (request : TrajectoryRequest.t) (df : WellFrame)
  (pre : list WellRow) (final : WellRow) :
  library_frame wp_get request = Some df ->
  has_required_columns df ->
  frame_rows df = pre ++ [final] ->
  exists t,
    generate_trajectory wp_get request_hash request = Generated t /\
    WellTrajectory.points t = map (point_of df) (frame_rows df) /\
    WellTrajectory.total_depth t = w_md final /\
    WellTrajectory.total_displacement t =
      R_sqrt.sqrt (row_get df final "north" w_north 0 ^ 2 +
                   row_get df final "east" w_east 0 ^ 2) /\
    greatest (WellTrajectory.max_inclination t) (map w_inc (frame_rows df)) /\
    (frame_has df "dls" = true ->
       greatest (WellTrajectory.max_dls t) (map w_dls (frame_rows df))) /\
    (frame_has df "dls" = false -> WellTrajectory.max_dls t = 0).
Proof.
  intros Hlib Hreq Hrows.
  destruct (frame_rows df) as [| r rs] eqn:Hcons.
  { destruct pre; discriminate. }
  pose proof (last_of_snoc _ pre final r rs Hrows) as Hlast.
  exists (generated_of request_hash request df r rs).
  unfold generate_trajectory.
  rewrite (generate_of_rows wp_get request_hash request df r rs Hlib Hreq Hcons).
  split; [reflexivity |].
  unfold generated_of. cbv zeta. rewrite Hlast.
  cbn [WellTrajectory.points WellTrajectory.total_depth
       WellTrajectory.total_displacement WellTrajectory.max_inclination
       WellTrajectory.max_dls].
  split; [reflexivity |]. split; [reflexivity |]. split; [reflexivity |].
  split; [apply (fold_Rmax_greatest (map w_inc rs)) |].
  split; intros Hdls; rewrite Hdls.
  - apply (fold_Rmax_greatest (map w_dls rs)).
  - reflexivity.
Qed.

Lemma X16_generate_summary_witness :
  exists t,
    generate_trajectory (always two_row_frame) "0" j_request = Generated t /\
    WellTrajectory.points t = map (point_of two_row_frame) (frame_rows two_row_frame) /\
    WellTrajectory.total_depth t = 100 /\
    WellTrajectory.total_displacement t =
      R_sqrt.sqrt (row_get two_row_frame
                     {| w_md := 100; w_tvd := 99; w_inc := 5; w_azi := 10;
                        w_north := 3; w_east := 4; w_dls := 5 |}
                     "north" w_north 0 ^ 2 +
                   row_get two_row_frame
                     {| w_md := 100; w_tvd := 99; w_inc := 5; w_azi := 10;
                        w_north := 3; w_east := 4; w_dls := 5 |}
                     "east" w_east 0 ^ 2) /\
    greatest (WellTrajectory.max_inclination t)
             (map w_inc (frame_rows two_row_frame)) /\
    (frame_has two_row_frame "dls" = true ->
       greatest (WellTrajectory.max_dls t) (map w_dls (frame_rows two_row_frame))) /\
    (frame_has two_row_frame "dls" = false -> WellTrajectory.max_dls t = 0).
Proof.
  apply (X16_generate_summary (always two_row_frame) "0" j_request two_row_frame
           [{| w_md := 0; w_tvd := 0; w_inc := 0; w_azi := 0;
               w_north := 0; w_east := 0; w_dls := 0 |}]
           {| w_md := 100; w_tvd := 99; w_inc := 5; w_azi := 10;
              w_north := 3; w_east := 4; w_dls := 5 |}).
  - reflexivity.
  - repeat split.
  - reflexivity.
Defined.

Lemma sorted_rows_sorted_points (df : WellFrame) (rows : list WellRow) :
  Sorted (fun prev curr => w_md prev <= w_md curr) rows ->
  md_nondecreasing (map (point_of df) rows).
Proof.
  unfold md_nondecreasing. induction 1 as [| row rows Hsorted IH Hhd].
  - constructor.
  - cbn [map]. constructor; [exact IH |].
    destruct Hhd as [| next rows' Hle]; constructor. exact Hle.
Qed.

(** X17.  The analyze handler accepts every trajectory the generate handler
    builds from a frame with the required columns and at least one row: it
    counts one point per row, its [closure_distance] is the trajectory's
    [total_displacement], its [max_inclination] is the trajectory's, and
    when measured depth never decreases along the rows its [total_length]
    is the trajectory's [total_depth]. *)
Theorem X17_analyze_after_generate
  (wp_get : R -> list (string * R) -> list (string * param) -> option WellFrame)
  (request_hash : string) (request : TrajectoryRequest.t) (df : WellFrame) :
  library_frame wp_get request = Some df ->
  has_required_columns df ->
  frame_rows df <> [] ->
  exists t r,
    generate_trajectory wp_get request_hash request = Generated t /\
    analyze_trajectory t = OK r /\
    point_count r = length (frame_rows df) /\
    closure_distance r = Val (WellTrajectory.total_displacement t) /\
    max_inclination r = Val (WellTrajectory.max_inclination t) /\
    (Sorted (fun prev curr => w_md prev <= w_md curr) (frame_rows df) ->
       total_length r = Val (WellTrajectory.total_depth t)).
Proof.
  intros Hlib Hreq Hne.
  destruct (frame_rows df) as [| row rows] eqn:Hrows; [contradiction |].
  exists (generated_of request_hash request df row rows).
  exists (analysis_of (point_of df row) (map (point_of df) rows)).
  unfold generate_trajectory.
  rewrite (generate_of_rows wp_get request_hash request df row rows Hlib Hreq Hrows).
  split; [reflexivity |].
  split; [apply analyze_trajectory_cons; reflexivity |].
  cbn [point_count closure_distance max_inclination total_length analysis_of].
  rewrite length_map, last_of_map, np_sqrt_sum_squares, !map_map.
  unfold generated_of. cbv zeta.
  cbn [WellTrajectory.total_depth WellTrajectory.total_displacement
       WellTrajectory.max_inclination north east inc md point_of or_0 length].
  repeat (split; [reflexivity |]).
  intros Hsorted.
  pose proof (sorted_rows_sorted_points df (row :: rows) Hsorted) as Hpts.
  cbn [map] in Hpts.
  pose proof (sorted_column_max _ _ Hpts) as Hmax.
  rewrite last_of_map, map_map in Hmax. cbn [md point_of] in Hmax.
  rewrite <- Hmax. reflexivity.
Qed.

Lemma X17_analyze_after_generate_witness :
  exists t r,
    generate_trajectory (always two_row_frame) "0" j_request = Generated t /\
    analyze_trajectory t = OK r /\
    point_count r = length (frame_rows two_row_frame) /\
    closure_distance r = Val (WellTrajectory.total_displacement t) /\
    max_inclination r = Val (WellTrajectory.max_inclination t) /\
    (Sorted (fun prev curr => w_md prev <= w_md curr) (frame_rows two_row_frame) ->
       total_length r = Val (WellTrajectory.total_depth t)).
Proof.
  apply (X17_analyze_after_generate (always two_row_frame) "0" j_request
           two_row_frame).
  - reflexivity.
  - repeat split.
  - discriminate.
Defined.

(** ** What the library is asked for *)

Lemma without_None_In (d : list (string * option param)) (k : string) (v : param) :
  In (k, v) (without_None d) <-> In (k, Some v) d.
Proof.
  induction d as [| [k' [v' |]] d IH]; cbn [without_None In].
  - tauto.
  - rewrite IH. split; intros [H | H]; auto; left; congruence.
  - rewrite IH. split; [auto | intros [H | H]; [discriminate | exact H]].
Qed.

Lemma target_depth_param (profile : TrajectoryProfile.t) (v : param) :
  In ("target_depth"%string, v) (profile_params profile) <->
  option_map PNum (TrajectoryProfile.target_depth profile) = Some v.
Proof.
  unfold profile_params. rewrite without_None_In. cbn [In]. split.
  - intros H. repeat (destruct H as [H | H]; [try discriminate |]);
      try contradiction.
    injection H as H. exact H.
  - intros H. do 7 right. left. rewrite H. reflexivity.
Qed.

(** X18.  The depth and the [target_depth] keyword the library receives.
    With no target depth the depth is 5000 and no [target_depth] keyword is
    passed; with a target depth other than 0 both are that depth; with a
    target depth of 0 the depth is 5000 while the keyword passed is 0.  The
    profile name is always passed as the [profile] keyword. *)
Theorem X18_depth_asked_of_the_library (profile : TrajectoryProfile.t) :
  (TrajectoryProfile.target_depth profile = None ->
     or_5000 (TrajectoryProfile.target_depth profile) = 5000 /\
     forall v, ~ In ("target_depth"%string, v) (profile_params profile)) /\
  (forall d, TrajectoryProfile.target_depth profile = Some d -> d <> 0 ->
     or_5000 (TrajectoryProfile.target_depth profile) = d /\
     In ("target_depth"%string, PNum d) (profile_params profile)) /\
  (TrajectoryProfile.target_depth profile = Some 0 ->
     or_5000 (TrajectoryProfile.target_depth profile) = 5000 /\
     In ("target_depth"%string, PNum 0) (profile_params profile)) /\
  In ("profile"%string, PStr (TrajectoryProfile.type profile))
     (profile_params profile).
Proof.
  split; [| split; [| split]].
  - intros Hnone. split; [rewrite Hnone; reflexivity |].
    intros v Hin. apply target_depth_param in Hin. rewrite Hnone in Hin.
    discriminate.
  - intros d Hsome Hd. split.
    + rewrite Hsome. cbn [or_5000]. destruct (Req_dec_T d 0); [contradiction | reflexivity].
    + apply target_depth_param. rewrite Hsome. reflexivity.
  - intros Hzero. split.
    + rewrite Hzero. cbn [or_5000]. destruct (Req_dec_T 0 0); [reflexivity | contradiction].
    + apply target_depth_param. rewrite Hzero. reflexivity.
  - unfold profile_params. apply without_None_In. left. reflexivity.
Qed.

(** ** A series of two entries *)

Lemma plain_turn_argument (prev curr : Row) :
  row_inc prev = 0 \/ row_inc curr = 0 \/ row_azi curr = row_azi prev ->
  arccos_argument prev curr = cos (np.radians (row_inc curr - row_inc prev)).
Proof.
  intros Hcase. rewrite arccos_argument_unwrapped.
  destruct Hcase as [H | [H | H]]; rewrite H.
  - rewrite radians_0, sin_0. ring.
  - rewrite radians_0, sin_0. ring.
  - replace (row_azi prev - row_azi prev) with 0 by ring.
    rewrite radians_0, cos_0. ring.
Qed.

Lemma build_section_first_dogleg :
  dogleg (to_dict (station 0 0 0 0 0 0)) (to_dict (station 100 100 5 0 4 0))
  = Val 5.
Proof.
  rewrite dogleg_of_plain_turn.
  - cbn [to_dict station row_inc inc]. f_equal.
    replace (5 - 0) with 5 by lra. apply Rabs_right. lra.
  - apply plain_turn_argument. left. reflexivity.
  - cbn [to_dict station row_inc inc].
    replace (5 - 0) with 5 by lra. rewrite Rabs_right; lra.
Qed.

Lemma build_section_second_dogleg :
  dogleg (to_dict (station 100 100 5 0 4 0)) (to_dict (station 300 298 10 0 30 0))
  = Val 5.
Proof.
  rewrite dogleg_of_plain_turn.
  - cbn [to_dict station row_inc inc]. f_equal.
    replace (10 - 5) with 5 by lra. apply Rabs_right. lra.
  - apply plain_turn_argument. right. right. reflexivity.
  - cbn [to_dict station row_inc inc].
    replace (10 - 5) with 5 by lra. rewrite Rabs_right; lra.
Qed.

Lemma build_section_series :
  dls_pairs (to_dict (station 0 0 0 0 0 0))
            [to_dict (station 100 100 5 0 4 0);
             to_dict (station 300 298 10 0 30 0)]
  = map Val [5; 5 / 2].
Proof.
  cbn [dls_pairs]. unfold dls_entry.
  rewrite build_section_first_dogleg, build_section_second_dogleg.
  cbn [to_dict station row_md md lift1 app map]. cbv zeta.
  destruct (Rgt_dec (100 - 0) 0) as [_ | Hle]; [| lra].
  destruct (Rgt_dec (300 - 100) 0) as [_ | Hle]; [| lra].
  cbn [app]. f_equal; [f_equal; lra | f_equal; f_equal; lra].
Qed.

Lemma X7_average_between_0_and_maximum_witness :
  dls_series (map to_dict (WellTrajectory.points (survey build_section)))
    = Return (map Val [5; 5 / 2]) /\
  exists r m a,
    analyze_trajectory (survey build_section) = OK r /\
    max_dls r = Val m /\
    avg_dls r = Val a /\
    0 <= a <= m /\
    ([5; 5 / 2] = [] -> m = 0 /\ a = 0).
Proof.
  assert (Hseries :
            dls_series (map to_dict (WellTrajectory.points (survey build_section)))
            = Return (map Val [5; 5 / 2])).
  { rewrite dls_series_of_survey.
    cbn [survey WellTrajectory.points build_section map].
    rewrite build_section_series. reflexivity. }
  split; [exact Hseries |].
  apply (X7_average_between_0_and_maximum (survey build_section) [5; 5 / 2]).
  - discriminate.
  - exact Hseries.
Defined.
